(** * tcap2021DM: the dark-matter analysis notebook, embedded in Rocq

    The notebook [tcap2021DM.ipynb] is a sequence of Python cells run in
    order in one kernel.  Each code cell the properties below talk about is
    transcribed here as a function, statement by statement.

    Conventions of the embedding.
    - A Python [float] is idealised as a real number ([R]); every arithmetic
      expression keeps the operations and the operator precedence of the
      source, [gammalib.pi] is [PI], [x**2] is [x ^ 2] and [10**y] with a
      float [y] is [Rpower 10 y].  Where the rounding of the arithmetic
      decides a property, the expression is also given on binary64
      numbers, in module [B64].
    - A raised exception is a value of [exn]; code that can raise lives in
      the state-and-exception monad [Py].
    - The gammalib/ctools objects are external to the notebook.  What the
      notebook needs of them is modelled from the written specification
      (parameter store) or taken as a section variable (flux integrator,
      optimizer). *)

From Stdlib Require Import Reals Lra Lia List Sorted.
From Stdlib Require Import PrimFloat.
From stdpp Require Import gmap strings list fin_maps.
Import ListNotations.
Set Warnings "-inexact-float".
Open Scope R_scope.

(** ** Exceptions *)

(** [NameError] and [TypeError] are Python's own; the others are the error
    kinds of the specification's taxonomy. *)
Inductive exn : Type :=
  | NameError (name : string)
  | TypeError
  | InvalidParameterError
  | OutOfRangeError
  | InvalidRangeError
  | DegenerateReferenceError
  | ExternalEvaluationFailure.

(** ** The state-and-exception monad *)

Definition Py (S A : Type) : Type := S -> S * (exn + A).

Definition ret {S A} (a : A) : Py S A := fun s => (s, inr a).

Definition raise {S A} (e : exn) : Py S A := fun s => (s, inl e).

Definition bind {S A B} (c : Py S A) (k : A -> Py S B) : Py S B :=
  fun s =>
    match c s with
    | (s', inl e) => (s', inl e)
    | (s', inr a) => k a s'
    end.

Definition gets {S A} (f : S -> A) : Py S A := fun s => (s, inr (f s)).

Definition modify {S} (f : S -> S) : Py S unit := fun s => (f s, inr tt).

Notation "x <- c ;; k" := (bind c (fun x => k))
  (at level 100, c at next level, right associativity).
Notation "c ;; k" := (bind c (fun _ => k))
  (at level 100, right associativity).

(** [for x in l: body(x)] *)
Fixpoint for_each {S A} (body : A -> Py S unit) (l : list A) : Py S unit :=
  match l with
  | [] => ret tt
  | x :: l' => body x ;; for_each body l'
  end.

(** ** Parameter store *)

(** Modelled from the spec: the gammalib class [GModelPar] is not part of the
    notebook.  A parameter has a current value, a valid range, a free/fixed
    flag and a scale factor. *)
Record GModelPar : Type := mkPar {
  cur : R;
  pmin : R;
  pmax : R;
  is_free : bool;
  scale_factor : R
}.

Definition set_cur (x : R) (p : GModelPar) : GModelPar :=
  mkPar x (pmin p) (pmax p) (is_free p) (scale_factor p).

Module Par.

(** Modelled from the spec: [p.value(x)] fails with [OutOfRangeError] if
    [x] is outside the declared range and the parameter is free; a fixed
    parameter may be set to any value. *)
Definition value (x : R) (p : GModelPar) : exn + GModelPar :=
  if is_free p then
    if Rle_dec (pmin p) x then
      if Rle_dec x (pmax p) then inr (set_cur x p) else inl OutOfRangeError
    else inl OutOfRangeError
  else inr (set_cur x p).

(** Modelled from the spec: [p.range(a, b)] declares the valid range. *)
Definition range (a b : R) (p : GModelPar) : exn + GModelPar :=
  inr (mkPar (cur p) a b (is_free p) (scale_factor p)).

(** Modelled from the spec: [p.scale(f)] sets the conditioning factor. *)
Definition scale (f : R) (p : GModelPar) : exn + GModelPar :=
  inr (mkPar (cur p) (pmin p) (pmax p) (is_free p) f).

(** Modelled from the spec: [p.free()] and [p.fix()] toggle the flag. *)
Definition free (p : GModelPar) : exn + GModelPar :=
  inr (mkPar (cur p) (pmin p) (pmax p) true (scale_factor p)).

Definition fix_ (p : GModelPar) : exn + GModelPar :=
  inr (mkPar (cur p) (pmin p) (pmax p) false (scale_factor p)).

(** The value [x] is accepted by [value]. *)
Definition admits (p : GModelPar) (x : R) : Prop :=
  is_free p = true -> pmin p <= x <= pmax p.

End Par.

(** A spectral model owns its parameters, looked up by name:
    [spec['Mass']], [spec['Channel']], [spec['Normalization']].
    [spec[name].op(...)] on a name the model does not have raises. *)
Definition update_par (name : string) (op : GModelPar -> exn + GModelPar)
    (spec : gmap string GModelPar) : exn + gmap string GModelPar :=
  match spec !! name with
  | None => inl InvalidParameterError
  | Some p =>
      match op p with
      | inl e => inl e
      | inr p' => inr (<[name := p']> spec)
      end
  end.

(** ** Modelling the source (notebook lines 69 to 188) *)

Definition jfactor : R := 1.8621e+18.
Definition mass : R := 5.0e+3.
Definition channel : R := 8.
Definition sigmav : R := 2.7e-22.

(** [fluxnorm  = jfactor * sigmav / (8*gammalib.pi*mass**2)]
    [fluxnorm *= 1.0e-3] *)
Definition fluxnorm (jfactor sigmav mass : R) : R :=
  let fluxnorm := jfactor * sigmav / (8 * PI * mass ^ 2) in
  fluxnorm * 1.0e-3.

(** [spec[name].op(...)] as a statement acting on the model [spec]. *)
Definition on_par (name : string) (op : GModelPar -> exn + GModelPar)
    : Py (gmap string GModelPar) unit :=
  fun spec =>
    match update_par name op spec with
    | inl e => (spec, inl e)
    | inr spec' => (spec', inr tt)
    end.

(** The cell that configures [dmspec]; it runs on the model that
    [dmspec.load(dmspecEW)] produced. *)
Definition setup_dmspec (mass channel fluxnorm : R)
    : Py (gmap string GModelPar) unit :=
  on_par "Mass" (Par.value mass) ;;
  on_par "Channel" (Par.value channel) ;;
  on_par "Channel" (Par.scale 1) ;;
  on_par "Normalization" (Par.value fluxnorm) ;;
  on_par "Normalization" (Par.range 0.0 1.0e+20).

(** ** Upper limits (notebook lines 574 to 589) *)

(** [sigmav = 5.0e-24] *)
Definition sigmav_ul : R := 5.0e-24.

(** [models[srcname].spectral()['Normalization'].value(fluxnorm)]
    [models[srcname].spectral()['Mass'].fix()] *)
Definition renormalise (fluxnorm : R) : Py (gmap string GModelPar) unit :=
  on_par "Normalization" (Par.value fluxnorm) ;;
  on_par "Mass" Par.fix_.

(** ** Likelihood profile: the trial values (notebook lines 740 to 742) *)

Definition npoints : nat := 50.

(** [width_s = (-6 - (-28)) / (npoints - 1)], Python 3 true division *)
Definition width_s : R := (-6 - (-28)) / (INR npoints - 1).

(** [norma_r = [10**(-28 + i * width_s) for i in range(npoints)]] *)
Definition norma_r : list R :=
  map (fun i : nat => Rpower 10 (-28 + INR i * width_s)) (seq 0 npoints).

(** ** Measured cross section (notebook lines 519 to 527) *)

(** The notebook's global namespace holds floats and [gammalib.GEnergy]
    objects (a number with its unit). *)
Inductive eunit : Type := TeV | GeV.

Record GEnergy : Type := mkEnergy { evalue : R; eunit_of : eunit }.

Inductive pyval : Type :=
  | PyFloat (x : R)
  | PyEnergy (e : GEnergy).

(** Reading a variable: [NameError] when it is not bound. *)
Definition name (x : string) : Py (gmap string pyval) pyval :=
  fun ns =>
    match ns !! x with
    | Some v => (ns, inr v)
    | None => (ns, inl (NameError x))
    end.

Definition assign (x : string) (v : pyval) : Py (gmap string pyval) unit :=
  modify (fun ns => <[x := v]> ns).

Definition as_float {S} (v : pyval) : Py S R :=
  match v with PyFloat x => ret x | _ => raise TypeError end.

Definition as_energy {S} (v : pyval) : Py S GEnergy :=
  match v with PyEnergy e => ret e | _ => raise TypeError end.

Section MeasuredCrossSection.

(** Modelled from the spec: [spectral.flux(emin, emax)], the flux
    integrator of gammalib, integrates the spectral model between two
    energies and fails with [InvalidRangeError] on a degenerate
    interval. *)
Variable flux : gmap string GModelPar -> GEnergy -> GEnergy -> option R.

Definition call_flux (spec : gmap string GModelPar) (lo hi : GEnergy)
    : Py (gmap string pyval) R :=
  match flux spec lo hi with
  | Some f => ret f
  | None => raise InvalidRangeError
  end.

(** The cell, run on the namespace; [dmmodel] is [dmmodel.spectral()]
    and [fitted] is [like.obs().models()[srcname].spectral()].  The
    result is what [print] shows. *)
Definition cell_measured_sigmav (dmmodel fitted : gmap string GModelPar)
    : Py (gmap string pyval) pyval :=
  (* gemin = gammalib.GEnergy(emin, 'TeV') *)
  emin <- (v <- name "emin" ;; as_float v) ;;
  assign "gemin" (PyEnergy (mkEnergy emin TeV)) ;;
  (* gemax = gammalib.GEnergy(mass, 'GeV') *)
  mass <- (v <- name "mass" ;; as_float v) ;;
  assign "gemax" (PyEnergy (mkEnergy mass GeV)) ;;
  (* ref_flux = dmmodel.spectral().flux(gemin, gemax) *)
  gemin <- (v <- name "gemin" ;; as_energy v) ;;
  gemax <- (v <- name "gemax" ;; as_energy v) ;;
  ref_flux <- call_flux dmmodel gemin gemax ;;
  assign "ref_flux" (PyFloat ref_flux) ;;
  (* meas_flux = like.obs().models()[srcname].spectral().flux(gemin, gemax) *)
  gemin <- (v <- name "gemin" ;; as_energy v) ;;
  gemax <- (v <- name "gemax" ;; as_energy v) ;;
  meas_flux <- call_flux fitted gemin gemax ;;
  assign "meas_flux" (PyFloat meas_flux) ;;
  (* print(meas_sigmav) *)
  name "meas_sigmav".

End MeasuredCrossSection.

(** ** Likelihood profile: the scan (notebook lines 760 and 778 to 784) *)

Section LikelihoodProfile.

(** The ctools optimizer is external.  Modelled from the spec: given the
    model it returns best-fit values for the parameters and the optimized
    log-likelihood, or fails; it carries an opaque state of its own from
    one call to the next. *)
Variable engine_state : Type.
Variable optimizer :
  engine_state -> gmap string GModelPar ->
  engine_state * option (gmap string R * R).

(** What the scan reads and writes: the spectral model held by [like],
    the value [like.opt().value()], the optimizer's state, and the
    notebook's list [ll_values].  [fit_log] is a ghost field: one entry
    per call of [like.run()], with the model the call received and the
    log-likelihood it produced ([None] when it failed). *)
Record kernel : Type := mkKernel {
  spectral : gmap string GModelPar;
  opt_value : R;
  engine : engine_state;
  fit_log : list (gmap string GModelPar * option R);
  ll_values : list R
}.

(** Modelled from the spec: a fit moves the free parameters to their
    best-fit values and leaves the fixed ones alone. *)
Definition fit_update (best : gmap string R)
    (spec : gmap string GModelPar) : gmap string GModelPar :=
  map_imap (fun name p =>
    Some (if is_free p
          then match best !! name with Some x => set_cur x p | None => p end
          else p)) spec.

(** [like.run()] *)
Definition like_run : Py kernel unit :=
  fun k =>
    match optimizer (engine k) (spectral k) with
    | (e', Some (best, ll)) =>
        (mkKernel (fit_update best (spectral k)) ll e'
           (fit_log k ++ [(spectral k, Some ll)]) (ll_values k),
         inr tt)
    | (e', None) =>
        (mkKernel (spectral k) (opt_value k) e'
           (fit_log k ++ [(spectral k, None)]) (ll_values k),
         inl ExternalEvaluationFailure)
    end.

(** [like.obs().models()[srcname].spectral()[name].op(...)] *)
Definition like_par (name : string) (op : GModelPar -> exn + GModelPar)
    : Py kernel unit :=
  fun k =>
    match update_par name op (spectral k) with
    | inl e => (k, inl e)
    | inr spec' =>
        (mkKernel spec' (opt_value k) (engine k) (fit_log k) (ll_values k),
         inr tt)
    end.

(** [ll_values = []] and [ll_values.append(ll)] *)
Definition ll_values_new : Py kernel unit :=
  modify (fun k =>
    mkKernel (spectral k) (opt_value k) (engine k) (fit_log k) []).

Definition ll_values_append (ll : R) : Py kernel unit :=
  modify (fun k =>
    mkKernel (spectral k) (opt_value k) (engine k) (fit_log k)
      (ll_values k ++ [ll])).

(** The cell that fixes the normalization:
    [like.obs().models()[srcname].spectral()['Normalization'].fix()]. *)
Definition fix_normalization : Py kernel unit :=
  like_par "Normalization" Par.fix_.

(** The body of the loop, for one [norma]. *)
Definition scan_step (norma : R) : Py kernel unit :=
  (* like.obs().models()[srcname].spectral()['Normalization'].value(norma) *)
  like_par "Normalization" (Par.value norma) ;;
  (* like.run() *)
  like_run ;;
  (* ll = like.opt().value() *)
  ll <- gets opt_value ;;
  (* ll_values.append(ll) *)
  ll_values_append ll.

(** The cell that computes the likelihood for every normalization:
    [ll_values = []] and then [for norma in norma_r : ...]. *)
Definition scan (norma_r : list R) : Py kernel unit :=
  ll_values_new ;;
  for_each scan_step norma_r.

(** The two cells, one after the other. *)
Definition likelihood_profile (norma_r : list R) : Py kernel unit :=
  fix_normalization ;;
  scan norma_r.

End LikelihoodProfile.

Arguments mkKernel {engine_state}.
Arguments spectral {engine_state}.
Arguments opt_value {engine_state}.
Arguments engine {engine_state}.
Arguments fit_log {engine_state}.
Arguments ll_values {engine_state}.
Arguments like_run {engine_state}.
Arguments like_par {engine_state}.
Arguments ll_values_new {engine_state}.
Arguments ll_values_append {engine_state}.
Arguments fix_normalization {engine_state}.
Arguments scan_step {engine_state}.
Arguments scan {engine_state}.
Arguments likelihood_profile {engine_state}.

(** The normalization a model carries, if any. *)
Definition normalization (spec : gmap string GModelPar) : option R :=
  cur <$> spec !! "Normalization".

(** The normalization of a model is fixed. *)
Definition normalization_fixed (spec : gmap string GModelPar) : Prop :=
  is_free <$> spec !! "Normalization" = Some false.

(** ** Example inputs *)

(** A model as a table file could declare it: the mass fixed, the
    normalization free within [0, 1000]. *)
Definition loaded_example : gmap string GModelPar :=
  <["Mass" := mkPar 1000 100 100000 false 1]>
    (<["Channel" := mkPar 1 1 30 false 1]>
       (<["Normalization" := mkPar 1 0 1000 true 1]> ∅)).


(** The model the setup cell builds from [loaded_example] with the
    notebook's values. *)
Definition dmspec_example : gmap string GModelPar :=
  fst (setup_dmspec mass channel (fluxnorm jfactor sigmav mass) loaded_example).

(** [emin  = 0.03 # TeV] and [emax  = 100. # TeV] *)
Definition emin : R := 0.03.
Definition emax : R := 100.

(** [ra      = 338.4813] and [dec     = -9.3274] *)
Definition ra : R := 338.4813.
Definition dec : R := -9.3274.

(** The float variables the notebook has bound when it reaches the cell of
    the measured cross section, the cells being run in order. *)
Definition namespace_at_measured_sigmav : gmap string pyval :=
  <["jfactor" := PyFloat jfactor]>
    (<["ra" := PyFloat ra]>
       (<["dec" := PyFloat dec]>
          (<["mass" := PyFloat mass]>
             (<["channel" := PyFloat channel]>
                (<["sigmav" := PyFloat sigmav]>
                   (<["fluxnorm" := PyFloat (fluxnorm jfactor sigmav mass)]>
                      (<["emin" := PyFloat emin]>
                         (<["emax" := PyFloat emax]> ∅)))))))).

(** A flux integrator for the examples: the flux is the normalization of
    the model times the width of the interval (in the units given). *)
Definition flux_example (spec : gmap string GModelPar) (lo hi : GEnergy)
    : option R :=
  match normalization spec with
  | Some n => Some (n * (evalue hi - evalue lo))
  | None => None
  end.

(** A fitted model for the examples: the normalization came out twice the
    reference one. *)
Definition fitted_example : gmap string GModelPar :=
  <["Normalization" := mkPar 2 0.0 1.0e+20 true 1]>
    (<["Mass" := mkPar 5.0e+3 100 100000 true 1]>
       (<["Channel" := mkPar 8 1 30 false 1]> ∅)).

Definition reference_example : gmap string GModelPar :=
  <["Normalization" := mkPar 1 0.0 1.0e+20 true 1]>
    (<["Mass" := mkPar 5.0e+3 100 100000 true 1]>
       (<["Channel" := mkPar 8 1 30 false 1]> ∅)).

(** A flux integrator that finds no flux at all in the interval. *)
Definition flux_zero (spec : gmap string GModelPar) (lo hi : GEnergy)
    : option R := Some 0.

(** The namespace after the four assignments of the cell. *)
Definition after_fluxes (ns : gmap string pyval) (emin mass r f : R)
    : gmap string pyval :=
  <["meas_flux" := PyFloat f]>
    (<["ref_flux" := PyFloat r]>
       (<["gemax" := PyEnergy (mkEnergy mass GeV)]>
          (<["gemin" := PyEnergy (mkEnergy emin TeV)]> ns))).

(** A computation on the namespace leaves the variable [x] unbound when it
    starts with [x] unbound. *)
Definition leaves_unbound {A} (x : string) (c : Py (gmap string pyval) A)
    : Prop :=
  forall ns, ns !! x = None -> fst (c ns) !! x = None.

(** A computation on the namespace raises whenever it starts with [x]
    unbound. *)
Definition raises_without {A} (x : string) (c : Py (gmap string pyval) A)
    : Prop :=
  forall ns, ns !! x = None -> exists ns' e, c ns = (ns', inl e).

(** ** Reading the log of a scan *)

(** The calls of the log were made on the first trial values, in the order
    of the trial sequence: the i-th call received the model with the
    normalization set to the i-th trial value. *)
Definition ran_in_order (log : list (gmap string GModelPar * option R))
    (norma_r : list R) : Prop :=
  Forall2 (fun entry norma => normalization (fst entry) = Some norma)
    log (take (length log) norma_r).

(** The call of this log entry returned a log-likelihood. *)
Definition succeeded (entry : gmap string GModelPar * option R) : Prop :=
  is_Some (snd entry).

(** The result of this log entry is what the optimizer returned for the
    model of the entry, in some state of the optimizer. *)
Definition returned_by {engine_state : Type}
    (optimizer : engine_state -> gmap string GModelPar ->
                 engine_state * option (gmap string R * R))
    (entry : gmap string GModelPar * option R) : Prop :=
  exists e, snd entry = snd <$> snd (optimizer e (fst entry)).

(** How a scan over [norma_r] can end, given the calls [log] it made:
    normally, after one successful call per trial value, or on the
    exception of a failed call, which is then the last one. *)
Definition scan_outcome (norma_r : list R)
    (log : list (gmap string GModelPar * option R))
    (out : exn + unit) : Prop :=
  match out with
  | inr _ => length log = length norma_r /\ Forall succeeded log
  | inl e =>
      e = ExternalEvaluationFailure /\
      exists log0 spec, log = log0 ++ [(spec, None)] /\ Forall succeeded log0
  end.

(** An optimizer for the examples: it counts its calls in its state, moves
    no parameter, reports the number of the call as log-likelihood, and
    fails on call number [n] (counting from 0). *)
Definition optimizer_fails_at (n : nat) (calls : nat)
    (spec : gmap string GModelPar) : nat * option (gmap string R * R) :=
  (S calls, if Nat.eqb calls n then None else Some (∅, INR calls)).

(** An optimizer that never fails. *)
Definition optimizer_ok (calls : nat)
    (spec : gmap string GModelPar) : nat * option (gmap string R * R) :=
  (S calls, Some (∅, INR calls)).

Definition kernel_example : kernel nat :=
  mkKernel fitted_example 0 0%nat [] [].

Definition ten_trials : list R := [1; 2; 3; 4; 5; 6; 7; 8; 9; 10].

Definition three_trials : list R := [1; 2; 3].

(** The kernel after the profile of the first four values, with the
    optimizer that fails on its fifth call. *)
Definition scanned_four : kernel nat :=
  fst (likelihood_profile (optimizer_fails_at 4) [1; 2; 3; 4] kernel_example).

(** ** Further cells of the notebook *)

(** [dmspec['Mass'].free()] (notebook line 206) *)
Definition free_mass : Py (gmap string GModelPar) unit :=
  on_par "Mass" Par.free.

(** The flux normalization as the notebook computes it, on binary64
    numbers with every operation rounded to nearest. *)
Module B64.

(** [gammalib.pi], the binary64 number nearest to pi. *)
Definition pi : float := 3.141592653589793%float.

Definition jfactor : float := 1.8621e+18%float.
Definition mass : float := 5.0e+3%float.
Definition sigmav : float := 2.7e-22%float.

(** [sigmav = 5.0e-24] (notebook line 574) *)
Definition sigmav_ul : float := 5.0e-24%float.

(** [fluxnorm  = jfactor * sigmav / (8*gammalib.pi*mass**2)]
    [fluxnorm *= 1.0e-3]
    The square [mass**2] is the rounded product [mass * mass]; for the
    notebook's mass, 5.0e+3, the square 2.5e+7 is a binary64 number and
    both are exact. *)
Definition fluxnorm (jfactor sigmav mass : float) : float :=
  let fluxnorm := (jfactor * sigmav / (8 * pi * (mass * mass)))%float in
  (fluxnorm * 1.0e-3)%float.


End B64.

(** The cells that act on the spectral model, in the order of the
    notebook: the setup, [dmspec['Mass'].free()], and the re-normalisation
    for the upper limit with its [Mass.fix()]. *)
Definition model_cells (mass channel fluxnorm1 fluxnorm2 : R)
    : Py (gmap string GModelPar) unit :=
  setup_dmspec mass channel fluxnorm1 ;;
  free_mass ;;
  renormalise fluxnorm2.

(** [ax.set_xlim(1.e-28, 1.e-6)] (notebook line 807) *)
Definition xlim : R * R := (1e-28, 1e-6).

(** ** Frames *)

(** Every run of [c] takes a state to a state related to it by [Rel],
    whether it returns or raises. *)
Definition steps_within {S A} (Rel : S -> S -> Prop) (c : Py S A) : Prop :=
  forall s, Rel s (fst (c s)).

(** [s'] binds every key outside [names] as [s] does. *)
Definition same_outside {V} (names : list string)
    (s s' : gmap string V) : Prop :=
  forall x, x ∉ names -> s' !! x = s !! x.

(** [s'] has the parameters of [s] with the same free/fixed flags. *)
Definition same_flags (s s' : gmap string GModelPar) : Prop :=
  forall x, is_free <$> s' !! x = is_free <$> s !! x.

(** A model whose normalization is free within [0, 1]. *)
Definition narrow_example : gmap string GModelPar :=
  <["Mass" := mkPar 1000 100 100000 false 1]>
    (<["Channel" := mkPar 1 1 30 false 1]>
       (<["Normalization" := mkPar 1 0 1 true 1]> ∅)).

(** [k'] has every parameter that is fixed in [k], other than the
    normalization, exactly as [k] has it. *)
Definition keeps_fixed_parameters {engine_state : Type}
    (k k' : kernel engine_state) : Prop :=
  forall name q, name <> "Normalization" ->
    spectral k !! name = Some q -> is_free q = false ->
    spectral k' !! name = Some q.

(** A flux integrator that rejects every interval. *)
Definition flux_undefined (spec : gmap string GModelPar) (lo hi : GEnergy)
    : option R := None.

(** * Properties *)

(** ** The parameter store *)

Lemma Par_value_inr x p p' : Par.value x p = inr p' -> p' = set_cur x p.
Proof.
  unfold Par.value.
  destruct (is_free p); [| congruence].
  destruct (Rle_dec (pmin p) x); [| discriminate].
  destruct (Rle_dec x (pmax p)); [congruence | discriminate].
Qed.

Lemma Par_value_admits x p :
  Par.admits p x -> Par.value x p = inr (set_cur x p).
Proof.
  unfold Par.admits, Par.value. intros Hadm.
  destruct (is_free p); [| reflexivity].
  destruct (Hadm eq_refl) as [Hlo Hhi].
  destruct (Rle_dec (pmin p) x); [| contradiction].
  destruct (Rle_dec x (pmax p)); [reflexivity | contradiction].
Qed.

Lemma Par_value_fixed x p :
  is_free p = false -> Par.value x p = inr (set_cur x p).
Proof. intros Hfix. apply Par_value_admits. unfold Par.admits. congruence. Qed.

Lemma on_par_ok name op p p' (spec : gmap string GModelPar) :
  spec !! name = Some p -> op p = inr p' ->
  on_par name op spec = (<[name := p']> spec, inr tt).
Proof. intros Hp Hop. unfold on_par, update_par. rewrite Hp, Hop. reflexivity. Qed.

Lemma bind_ok {S A B} (c : Py S A) (k : A -> Py S B) s s' a :
  c s = (s', inr a) -> bind c k s = k a s'.
Proof. intros Hc. unfold bind. rewrite Hc. reflexivity. Qed.

(** What [setup_dmspec] leaves behind when every value is accepted. *)
Lemma setup_dmspec_ok (loaded : gmap string GModelPar) pm pc pn m ch f :
  loaded !! "Mass" = Some pm ->
  loaded !! "Channel" = Some pc ->
  loaded !! "Normalization" = Some pn ->
  Par.admits pm m -> Par.admits pc ch -> Par.admits pn f ->
  setup_dmspec m ch f loaded =
    (<["Normalization" := mkPar f 0.0 1.0e+20 (is_free pn) (scale_factor pn)]>
       (<["Channel" := mkPar ch (pmin pc) (pmax pc) (is_free pc) 1]>
          (<["Mass" := set_cur m pm]> loaded)),
     inr tt).
Proof.
  intros Hm Hc Hn Am Ac An. unfold setup_dmspec.
  rewrite (bind_ok _ _ _ _ _ (on_par_ok _ _ _ _ _ Hm (Par_value_admits _ _ Am))).
  erewrite bind_ok; cycle 1.
  { eapply on_par_ok; [| apply Par_value_admits, Ac].
    rewrite lookup_insert_ne by discriminate. exact Hc. }
  erewrite bind_ok; cycle 1.
  { eapply on_par_ok; [apply lookup_insert_eq | reflexivity]. }
  rewrite insert_insert_eq.
  erewrite bind_ok; cycle 1.
  { eapply on_par_ok; [| apply Par_value_admits, An].
    rewrite !lookup_insert_ne by discriminate. exact Hn. }
  erewrite on_par_ok; [| apply lookup_insert_eq | reflexivity].
  rewrite insert_insert_eq. reflexivity.
Qed.

(** ** The flux normalization *)

Lemma PI_gt_3 : 3 < PI.
Proof. pose proof PI2_3_2. lra. Qed.

(** For the notebook's J factor and mass, a cross section up to 1e-10 gives
    a normalization between 0 and 1000. *)
Lemma fluxnorm_notebook_bounds s :
  0 <= s <= 1.0e-10 -> 0 <= fluxnorm jfactor s mass <= 1000.
Proof.
  intros [Hlo Hhi]. unfold fluxnorm, jfactor, mass.
  replace 1.0e-3 with (/ 1000) by lra. unfold Rdiv.
  pose proof PI_gt_3 as Hpi.
  assert (Hd : 6.0e+8 < 8 * PI * 5.0e+3 ^ 2) by nra.
  assert (Hinv : 0 < / (8 * PI * 5.0e+3 ^ 2) < / 6.0e+8).
  { split; [apply Rinv_0_lt_compat; lra |].
    apply Rinv_lt_contravar; nra. }
  set (d := / (8 * PI * 5.0e+3 ^ 2)) in *.
  assert (HA : 0 <= 1.8621e+18 * s <= 1.8621e+8) by lra.
  set (A := 1.8621e+18 * s) in *.
  clearbody A d.
  assert (0 <= A * d <= 1.8621e+8 * / 6.0e+8) by (split; nra).
  lra.
Qed.

Lemma normalization_insert p (spec : gmap string GModelPar) :
  normalization (<["Normalization" := p]> spec) = Some (cur p).
Proof. unfold normalization. rewrite lookup_insert_eq. reflexivity. Qed.

(** C3: the flux normalization is [jfactor * sigmav / (8 pi mass^2) * 10^-3],
    and it is the value the setup cell gives to the [Normalization]
    parameter of the model (every value being accepted by its parameter);
    the instance at the notebook's J factor, mass and cross section is
    [fluxnorm_assigned_to_normalization_witness]. *)
Theorem fluxnorm_assigned_to_normalization
    (loaded : gmap string GModelPar) (pm pc pn : GModelPar) (j s m ch : R) :
  loaded !! "Mass" = Some pm ->
  loaded !! "Channel" = Some pc ->
  loaded !! "Normalization" = Some pn ->
  Par.admits pm m -> Par.admits pc ch -> Par.admits pn (fluxnorm j s m) ->
  fluxnorm j s m = j * s / (8 * PI * (m * m)) * / 10 ^ 3 /\
  exists dmspec,
    setup_dmspec m ch (fluxnorm j s m) loaded = (dmspec, inr tt) /\
    normalization dmspec = Some (j * s / (8 * PI * (m * m)) * / 10 ^ 3).
Proof.
  intros Hm Hc Hn Am Ac An.
  assert (Hf : fluxnorm j s m = j * s / (8 * PI * (m * m)) * / 10 ^ 3).
  { unfold fluxnorm. replace 1.0e-3 with (/ 10 ^ 3) by lra.
    replace (m ^ 2) with (m * m) by ring. reflexivity. }
  split; [exact Hf |].
  eexists. split.
  - apply (setup_dmspec_ok _ _ _ _ _ _ _ Hm Hc Hn Am Ac An).
  - rewrite normalization_insert. simpl. f_equal. exact Hf.
Qed.

Lemma loaded_example_Mass :
  loaded_example !! "Mass" = Some (mkPar 1000 100 100000 false 1).
Proof. reflexivity. Qed.

Lemma loaded_example_Channel :
  loaded_example !! "Channel" = Some (mkPar 1 1 30 false 1).
Proof. reflexivity. Qed.

Lemma loaded_example_Normalization :
  loaded_example !! "Normalization" = Some (mkPar 1 0 1000 true 1).
Proof. reflexivity. Qed.

Lemma admits_fixed p x : is_free p = false -> Par.admits p x.
Proof. unfold Par.admits. congruence. Qed.

Lemma admits_example_normalization s :
  0 <= s <= 1.0e-10 ->
  Par.admits (mkPar 1 0 1000 true 1) (fluxnorm jfactor s mass).
Proof. intros Hs _. simpl. apply fluxnorm_notebook_bounds, Hs. Qed.

Lemma fluxnorm_assigned_to_normalization_witness :
  exists dmspec,
    setup_dmspec mass channel (fluxnorm jfactor sigmav mass) loaded_example
      = (dmspec, inr tt) /\
    normalization dmspec
      = Some (1.8621e+18 * 2.7e-22 / (8 * PI * (5.0e+3 * 5.0e+3)) * / 10 ^ 3).
Proof.
  apply (fluxnorm_assigned_to_normalization loaded_example _ _ _
           jfactor sigmav mass channel
           loaded_example_Mass loaded_example_Channel
           loaded_example_Normalization).
  - apply admits_fixed. reflexivity.
  - apply admits_fixed. reflexivity.
  - apply admits_example_normalization. unfold sigmav. lra.
Defined.

Lemma renormalise_ok (models : gmap string GModelPar) qn qm f :
  models !! "Normalization" = Some qn ->
  models !! "Mass" = Some qm ->
  Par.admits qn f ->
  renormalise f models =
    (<["Mass" := mkPar (cur qm) (pmin qm) (pmax qm) false (scale_factor qm)]>
       (<["Normalization" := set_cur f qn]> models),
     inr tt).
Proof.
  intros Hn Hm An. unfold renormalise.
  rewrite (bind_ok _ _ _ _ _ (on_par_ok _ _ _ _ _ Hn (Par_value_admits _ _ An))).
  erewrite on_par_ok; [reflexivity | | reflexivity].
  rewrite lookup_insert_ne by discriminate. exact Hm.
Qed.

(** ** The trial values of the profile scan *)

Lemma width_s_val : width_s = 22 / 49.
Proof.
  unfold width_s, npoints. rewrite INR_IZR_INZ. cbv [Z.of_nat Pos.of_succ_nat Pos.succ]. lra.
Qed.

Lemma lookup_map {A B} (f : A -> B) (l : list A) (i : nat) :
  map f l !! i = f <$> l !! i.
Proof.
  revert i. induction l as [| a l IH]; intros [| i]; simpl; auto.
Qed.

Lemma norma_r_lookup (i : nat) :
  norma_r !! i =
    if decide (i < npoints)%nat
    then Some (Rpower 10 (-28 + INR i * width_s)) else None.
Proof.
  unfold norma_r. rewrite lookup_map.
  destruct (decide (i < npoints)%nat) as [Hlt | Hge].
  - rewrite lookup_seq_lt by exact Hlt. reflexivity.
  - rewrite lookup_seq_ge by lia. reflexivity.
Qed.

Lemma trial_increasing (i j : nat) :
  (i < j)%nat ->
  Rpower 10 (-28 + INR i * width_s) < Rpower 10 (-28 + INR j * width_s).
Proof.
  intros Hij. apply Rpower_lt; [lra |].
  apply lt_INR in Hij. rewrite width_s_val. nra.
Qed.

Lemma map_seq_StronglySorted (f : nat -> R) (a n : nat) :
  (forall i j : nat, (i < j)%nat -> f i < f j) ->
  StronglySorted Rlt (map f (seq a n)).
Proof.
  intros Hmono. revert a. induction n as [| n IH]; intros a; simpl.
  - constructor.
  - constructor; [apply IH |].
    apply Forall_forall. intros x Hx.
    apply list_elem_of_In, in_map_iff in Hx. destruct Hx as [j [<- Hj]].
    apply in_seq in Hj. apply Hmono. lia.
Qed.

Lemma Rpower_10_neg (n : nat) : Rpower 10 (- INR n) = / 10 ^ n.
Proof. rewrite Rpower_Ropp, Rpower_pow by lra. reflexivity. Qed.

Lemma Rpower_10_m28 : Rpower 10 (-28) = 1e-28.
Proof.
  replace (-28) with (- INR 28) by (rewrite INR_IZR_INZ; cbv [Z.of_nat Pos.of_succ_nat Pos.succ]; lra).
  rewrite Rpower_10_neg. lra.
Qed.

Lemma Rpower_10_m6 : Rpower 10 (-6) = 1e-6.
Proof.
  replace (-6) with (- INR 6) by (rewrite INR_IZR_INZ; cbv [Z.of_nat Pos.of_succ_nat Pos.succ]; lra).
  rewrite Rpower_10_neg. lra.
Qed.

(** C7: the trial sequence has exactly 50 values, the i-th being 10 to the
    power -28 + i * 22/49; it starts at 1e-28, ends at 1e-6 and is strictly
    increasing. *)
Theorem norma_r_log_spaced :
  length norma_r = 50%nat /\
  (forall i : nat,
     norma_r !! i =
       if decide (i < 50)%nat
       then Some (Rpower 10 (-28 + INR i * (22 / 49))) else None) /\
  norma_r !! 0%nat = Some 1e-28 /\
  norma_r !! 49%nat = Some 1e-6 /\
  StronglySorted Rlt norma_r.
Proof.
  split; [| split; [| split; [| split]]].
  - unfold norma_r. rewrite length_map, length_seq. reflexivity.
  - intros i. rewrite norma_r_lookup, width_s_val. reflexivity.
  - rewrite norma_r_lookup. simpl. f_equal.
    rewrite <- Rpower_10_m28. f_equal. lra.
  - rewrite norma_r_lookup, width_s_val. simpl decide.
    cbv iota. f_equal. rewrite <- Rpower_10_m6. f_equal.
    rewrite INR_IZR_INZ. cbv [Z.of_nat Pos.of_succ_nat Pos.succ]. lra.
  - apply map_seq_StronglySorted. intros i j. apply trial_increasing.
Qed.

Lemma trial_value_bounds (v : R) :
  v ∈ norma_r -> 0 < v < 1.
Proof.
  intros Hv. apply list_elem_of_lookup in Hv. destruct Hv as [i Hi].
  rewrite norma_r_lookup in Hi.
  destruct (decide (i < npoints)%nat) as [Hlt | Hge]; [| discriminate].
  injection Hi as <-. split.
  - unfold Rpower. apply exp_pos.
  - rewrite <- (Rpower_O 10) by lra. apply Rpower_lt; [lra |].
    rewrite width_s_val. unfold npoints in Hlt.
    assert (INR i <= 49).
    { replace 49 with (INR 49) by (rewrite INR_IZR_INZ; cbv [Z.of_nat Pos.of_succ_nat Pos.succ]; lra).
      apply le_INR. lia. }
    lra.
Qed.

Lemma bind_inr_inv {S A B} (c : Py S A) (k : A -> Py S B) s s' b :
  bind c k s = (s', inr b) ->
  exists s1 a, c s = (s1, inr a) /\ k a s1 = (s', inr b).
Proof.
  unfold bind. destruct (c s) as [s1 [e | a]]; [discriminate |].
  intros Hk. eauto.
Qed.

Lemma on_par_inr_inv name op (spec spec' : gmap string GModelPar) u :
  on_par name op spec = (spec', inr u) ->
  exists p p', spec !! name = Some p /\ op p = inr p' /\
    spec' = <[name := p']> spec.
Proof.
  unfold on_par, update_par.
  destruct (spec !! name) as [p |]; [| discriminate].
  destruct (op p) as [e | p'] eqn:Hop; [discriminate |].
  intros [= <-]. exists p, p'. auto.
Qed.

(** The setup cell declares the range of the normalization. *)
Lemma setup_dmspec_range m ch f (loaded dmspec : gmap string GModelPar) :
  setup_dmspec m ch f loaded = (dmspec, inr tt) ->
  exists pn, dmspec !! "Normalization" = Some pn /\
    pmin pn = 0.0 /\ pmax pn = 1.0e+20.
Proof.
  unfold setup_dmspec. intros H.
  apply bind_inr_inv in H as (s1 & [] & _ & H).
  apply bind_inr_inv in H as (s2 & [] & _ & H).
  apply bind_inr_inv in H as (s3 & [] & _ & H).
  apply bind_inr_inv in H as (s4 & [] & _ & H).
  apply on_par_inr_inv in H as (p & p' & _ & Hop & ->).
  injection Hop as <-. eexists. split; [apply lookup_insert_eq |].
  split; reflexivity.
Qed.

(** C10: every trial value of the scan lies strictly inside the range
    [0.0, 1.0e+20] that the setup cell declares for the normalization, so
    a parameter with that range accepts it, free or fixed. *)
Theorem trial_values_within_declared_range
    (v m ch f : R) (loaded dmspec : gmap string GModelPar) :
  v ∈ norma_r ->
  setup_dmspec m ch f loaded = (dmspec, inr tt) ->
  exists pn, dmspec !! "Normalization" = Some pn /\
    pmin pn = 0.0 /\ pmax pn = 1.0e+20 /\
    pmin pn < v < pmax pn /\
    forall q, pmin q = pmin pn -> pmax q = pmax pn ->
      Par.value v q = inr (set_cur v q).
Proof.
  intros Hv Hsetup.
  destruct (setup_dmspec_range _ _ _ _ _ Hsetup) as (pn & Hpn & Hmin & Hmax).
  apply trial_value_bounds in Hv.
  exists pn. repeat split; try assumption.
  - rewrite Hmin. lra.
  - rewrite Hmax. lra.
  - intros q Hqmin Hqmax. apply Par_value_admits. intros _.
    rewrite Hqmin, Hqmax, Hmin, Hmax. lra.
Qed.

Lemma dmspec_example_setup :
  setup_dmspec mass channel (fluxnorm jfactor sigmav mass) loaded_example
    = (dmspec_example, inr tt).
Proof.
  unfold dmspec_example.
  rewrite (setup_dmspec_ok loaded_example _ _ _ _ _ _
             loaded_example_Mass loaded_example_Channel
             loaded_example_Normalization).
  - reflexivity.
  - apply admits_fixed. reflexivity.
  - apply admits_fixed. reflexivity.
  - apply admits_example_normalization. unfold sigmav. lra.
Qed.

Lemma first_trial_in_norma_r :
  Rpower 10 (-28 + INR 0 * width_s) ∈ norma_r.
Proof. apply list_elem_of_lookup. exists 0%nat. reflexivity. Qed.

Lemma trial_values_within_declared_range_witness :
  exists pn, dmspec_example !! "Normalization" = Some pn /\
    pmin pn = 0.0 /\ pmax pn = 1.0e+20 /\
    pmin pn < Rpower 10 (-28 + INR 0 * width_s) < pmax pn /\
    forall q, pmin q = pmin pn -> pmax q = pmax pn ->
      Par.value (Rpower 10 (-28 + INR 0 * width_s)) q
        = inr (set_cur (Rpower 10 (-28 + INR 0 * width_s)) q).
Proof.
  exact (trial_values_within_declared_range _ mass channel
           (fluxnorm jfactor sigmav mass) loaded_example dmspec_example
           first_trial_in_norma_r dmspec_example_setup).
Defined.

(** ** The cell of the measured cross section *)

(** The cell traced: with [emin] and [mass] bound to floats and both
    integrals defined, the four assignments are made and the cell ends on
    the lookup of [meas_sigmav]. *)
Lemma cell_measured_sigmav_run flux dmmodel fitted
    (ns : gmap string pyval) (emin mass r f : R) :
  ns !! "emin" = Some (PyFloat emin) ->
  ns !! "mass" = Some (PyFloat mass) ->
  flux dmmodel (mkEnergy emin TeV) (mkEnergy mass GeV) = Some r ->
  flux fitted (mkEnergy emin TeV) (mkEnergy mass GeV) = Some f ->
  cell_measured_sigmav flux dmmodel fitted ns =
    (after_fluxes ns emin mass r f,
     match ns !! "meas_sigmav" with
     | Some v => inr v
     | None => inl (NameError "meas_sigmav")
     end).
Proof.
  intros Hemin Hmass Hr Hf.
  unfold cell_measured_sigmav, after_fluxes, bind, name, assign, modify,
    call_flux, as_float, as_energy, ret.
  rewrite Hemin.
  rewrite lookup_insert_ne by discriminate. rewrite Hmass.
  rewrite lookup_insert_ne by discriminate. rewrite lookup_insert_eq.
  rewrite lookup_insert_eq. rewrite Hr.
  rewrite !lookup_insert_ne by discriminate. rewrite lookup_insert_eq.
  rewrite lookup_insert_ne by discriminate. rewrite lookup_insert_eq.
  rewrite Hf.
  rewrite !lookup_insert_ne by discriminate.
  destruct (ns !! "meas_sigmav"); reflexivity.
Qed.

Lemma leaves_unbound_bind {A B} x (c : Py (gmap string pyval) A)
    (k : A -> Py (gmap string pyval) B) :
  leaves_unbound x c -> (forall a, leaves_unbound x (k a)) ->
  leaves_unbound x (bind c k).
Proof.
  intros Hc Hk ns Hns. unfold bind. specialize (Hc ns Hns).
  destruct (c ns) as [ns1 [e | a]]; simpl in *; [exact Hc |].
  apply Hk, Hc.
Qed.

Lemma raises_without_bind {A B} x (c : Py (gmap string pyval) A)
    (k : A -> Py (gmap string pyval) B) :
  leaves_unbound x c -> (forall a, raises_without x (k a)) ->
  raises_without x (bind c k).
Proof.
  intros Hc Hk ns Hns. unfold bind. specialize (Hc ns Hns).
  destruct (c ns) as [ns1 [e | a]]; simpl in *; [eauto |].
  apply Hk, Hc.
Qed.

Lemma leaves_unbound_name x y : leaves_unbound x (name y).
Proof. intros ns Hns. unfold name. destruct (ns !! y); exact Hns. Qed.

Lemma leaves_unbound_assign x y v : x <> y -> leaves_unbound x (assign y v).
Proof.
  intros Hxy ns Hns. unfold assign, modify. simpl.
  rewrite lookup_insert_ne by congruence. exact Hns.
Qed.

Lemma leaves_unbound_as_float x v : leaves_unbound x (as_float v).
Proof. intros ns Hns. destruct v; exact Hns. Qed.

Lemma leaves_unbound_as_energy x v : leaves_unbound x (as_energy v).
Proof. intros ns Hns. destruct v; exact Hns. Qed.

Lemma leaves_unbound_call_flux x flux spec lo hi :
  leaves_unbound x (call_flux flux spec lo hi).
Proof.
  intros ns Hns. unfold call_flux. destruct (flux spec lo hi); exact Hns.
Qed.

Lemma raises_without_name x : raises_without x (name x).
Proof. intros ns Hns. unfold name. rewrite Hns. eauto. Qed.

(** Whatever the models and the flux integrator, the cell run on a
    namespace that does not bind [meas_sigmav] raises: it prints no
    cross section. *)
Lemma cell_measured_sigmav_raises flux dmmodel fitted :
  raises_without "meas_sigmav" (cell_measured_sigmav flux dmmodel fitted).
Proof.
  unfold cell_measured_sigmav.
  repeat first
    [ apply raises_without_name
    | apply raises_without_bind; [| intros ?]
    | apply leaves_unbound_bind; [| intros ?]
    | apply leaves_unbound_name
    | apply leaves_unbound_assign; discriminate
    | apply leaves_unbound_as_float
    | apply leaves_unbound_as_energy
    | apply leaves_unbound_call_flux ].
Qed.

(** ** The profile scan *)

Section ScanProperties.

Context {engine_state : Type}.
Variable optimizer :
  engine_state -> gmap string GModelPar ->
  engine_state * option (gmap string R * R).

Implicit Type k : kernel engine_state.

Lemma like_par_ok name op p p' k :
  spectral k !! name = Some p -> op p = inr p' ->
  like_par name op k =
    (mkKernel (<[name := p']> (spectral k)) (opt_value k) (engine k)
       (fit_log k) (ll_values k), inr tt).
Proof.
  intros Hp Hop. unfold like_par, update_par. rewrite Hp, Hop. reflexivity.
Qed.

Lemma fit_update_fixed best (spec : gmap string GModelPar) name p :
  spec !! name = Some p -> is_free p = false ->
  fit_update best spec !! name = Some p.
Proof.
  intros Hp Hfix. unfold fit_update. rewrite map_lookup_imap, Hp. simpl.
  rewrite Hfix. reflexivity.
Qed.

(** One turn of the loop on a fixed normalization. *)
Lemma scan_step_run k norma p :
  spectral k !! "Normalization" = Some p -> is_free p = false ->
  scan_step optimizer norma k =
    let spec := <["Normalization" := set_cur norma p]> (spectral k) in
    match optimizer (engine k) spec with
    | (e', Some (best, ll)) =>
        (mkKernel (fit_update best spec) ll e'
           (fit_log k ++ [(spec, Some ll)]) (ll_values k ++ [ll]), inr tt)
    | (e', None) =>
        (mkKernel spec (opt_value k) e'
           (fit_log k ++ [(spec, None)]) (ll_values k),
         inl ExternalEvaluationFailure)
    end.
Proof.
  intros Hp Hfix. unfold scan_step.
  rewrite (bind_ok _ _ _ _ _
             (like_par_ok _ _ _ _ k Hp (Par_value_fixed norma p Hfix))).
  unfold bind, like_run, gets, ll_values_append, modify. simpl.
  destruct (optimizer (engine k) _) as [e' [[best ll] |]]; reflexivity.
Qed.

Lemma normalization_fixed_insert p (spec : gmap string GModelPar) :
  is_free p = false ->
  normalization_fixed (<["Normalization" := p]> spec).
Proof.
  intros Hfix. unfold normalization_fixed. rewrite lookup_insert_eq.
  simpl. rewrite Hfix. reflexivity.
Qed.

(** The loop, from a kernel whose normalization is fixed. *)
Lemma for_each_scan_step_spec (l : list R) : forall k p,
  spectral k !! "Normalization" = Some p -> is_free p = false ->
  exists k' out log,
    for_each (scan_step optimizer) l k = (k', out) /\
    fit_log k' = fit_log k ++ log /\
    ll_values k' = ll_values k ++ omap snd log /\
    ran_in_order log l /\
    Forall (fun entry => normalization_fixed (fst entry)) log /\
    Forall (returned_by optimizer) log /\
    normalization_fixed (spectral k') /\
    scan_outcome l log out.
Proof.
  induction l as [| norma l IH]; intros k p Hp Hfix.
  - exists k, (inr tt), []. simpl. rewrite !app_nil_r.
    repeat split; try constructor.
    unfold normalization_fixed. rewrite Hp. simpl. congruence.
  - simpl for_each. unfold bind at 1.
    rewrite (scan_step_run k norma p Hp Hfix). cbv zeta.
    set (spec := <["Normalization" := set_cur norma p]> (spectral k)).
    assert (Hspec : normalization spec = Some norma).
    { unfold spec. apply normalization_insert. }
    assert (Hsfix : normalization_fixed spec).
    { unfold spec. apply normalization_fixed_insert. exact Hfix. }
    destruct (optimizer (engine k) spec) as [e' [[best ll] |]] eqn:Hopt.
    + destruct (IH (mkKernel (fit_update best spec) ll e'
                      (fit_log k ++ [(spec, Some ll)]) (ll_values k ++ [ll]))
                   (set_cur norma p))
        as (k' & out & log & Hrun & Hlog & Hll & Hord & Hfixed & Hret & Hend
             & Hout).
      { simpl. apply fit_update_fixed; [apply lookup_insert_eq | exact Hfix]. }
      { exact Hfix. }
      exists k', out, ((spec, Some ll) :: log).
      simpl in Hlog, Hll. rewrite <- !app_assoc in Hlog, Hll.
      repeat split; try assumption.
      * constructor; [exact Hspec | exact Hord].
      * constructor; [exact Hsfix | exact Hfixed].
      * constructor; [| exact Hret].
        exists (engine k). simpl. rewrite Hopt. reflexivity.
      * destruct out as [e | u]; simpl in *.
        -- destruct Hout as (-> & log0 & m & -> & Hall).
           split; [reflexivity |].
           exists ((spec, Some ll) :: log0), m. split; [reflexivity |].
           constructor; [eexists; reflexivity | exact Hall].
        -- destruct Hout as [Hlen Hall]. split; [congruence |].
           constructor; [eexists; reflexivity | exact Hall].
    + exists (mkKernel spec (opt_value k) e'
                (fit_log k ++ [(spec, None)]) (ll_values k)),
        (inl ExternalEvaluationFailure), [(spec, None)].
      simpl. rewrite app_nil_r.
      repeat split; try assumption.
      * constructor; [exact Hspec | constructor].
      * constructor; [exact Hsfix | constructor].
      * constructor; [| constructor].
        exists (engine k). simpl. rewrite Hopt. reflexivity.
      * exists [], spec. split; [reflexivity | constructor].
Qed.

(** The two cells together, from a kernel that has a normalization. *)
Lemma likelihood_profile_spec (l : list R) k p :
  spectral k !! "Normalization" = Some p ->
  exists k' out log,
    likelihood_profile optimizer l k = (k', out) /\
    fit_log k' = fit_log k ++ log /\
    ll_values k' = omap snd log /\
    ran_in_order log l /\
    Forall (fun entry => normalization_fixed (fst entry)) log /\
    Forall (returned_by optimizer) log /\
    normalization_fixed (spectral k') /\
    scan_outcome l log out.
Proof.
  intros Hp. unfold likelihood_profile, fix_normalization, scan.
  rewrite (bind_ok _ _ _ _ _
             (like_par_ok "Normalization" Par.fix_ p _ k Hp eq_refl)).
  unfold bind at 1, ll_values_new, modify.
  match goal with |- context [for_each _ l ?k0] =>
    destruct (for_each_scan_step_spec l k0
                (mkPar (cur p) (pmin p) (pmax p) false (scale_factor p)))
      as (k' & out & log & Hrun & Hlog & Hll & Hrest)
  end.
  { simpl. apply lookup_insert_eq. }
  { reflexivity. }
  exists k', out, log. simpl in Hlog, Hll. auto.
Qed.

End ScanProperties.

Lemma succeeded_omap (log : list (gmap string GModelPar * option R)) :
  Forall succeeded log -> map snd log = map Some (omap snd log).
Proof.
  induction 1 as [| [spec res] log [ll Hll] _ IH]; [reflexivity |].
  simpl in Hll. subst res. simpl. f_equal. exact IH.
Qed.

Lemma ran_in_order_length log l :
  ran_in_order log l -> (length log <= length l)%nat.
Proof.
  intros H. apply Forall2_length in H. rewrite length_take in H. lia.
Qed.

Lemma ran_in_order_last log0 spec res l :
  ran_in_order (log0 ++ [(spec, res)]) l ->
  exists norma, l !! length log0 = Some norma /\
    normalization spec = Some norma.
Proof.
  unfold ran_in_order. intros H.
  apply Forall2_app_inv_l in H as (l1 & l2 & H1 & H2 & Htake).
  apply Forall2_length in H1.
  inversion H2 as [| entry norma rest l2' Hn Hrest]; subst.
  inversion Hrest; subst. simpl in Hn.
  exists norma. split; [| exact Hn].
  rewrite <- (take_drop (length (log0 ++ [(spec, res)])) l), Htake.
  rewrite <- app_assoc, H1. apply list_lookup_middle. reflexivity.
Qed.

Lemma never_fails_succeeded {engine_state : Type}
    (optimizer : engine_state -> gmap string GModelPar ->
                 engine_state * option (gmap string R * R)) log :
  (forall e spec, snd (optimizer e spec) <> None) ->
  Forall (returned_by optimizer) log -> Forall succeeded log.
Proof.
  intros Hok Hlog. eapply Forall_impl; [exact Hlog |].
  intros [spec res] [e He]. simpl in He.
  unfold succeeded. simpl. subst res.
  destruct (snd (optimizer e spec)) as [r |] eqn:Hr; [eexists; reflexivity |].
  exfalso. exact (Hok e spec Hr).
Qed.

(** ** The measured cross section *)

(** C1: the cell that is to print the measured cross section computes the
    two integrated fluxes and then reads [meas_sigmav], which no cell of
    the notebook assigns.  Whatever the models and the integrator, run on
    a namespace without [meas_sigmav] it raises; run on the notebook's
    namespace, with a measured flux twice the reference flux, it raises
    [NameError] and produces no cross section. *)
Theorem measured_sigmav_is_never_assigned :
  (forall flux dmmodel fitted,
     raises_without "meas_sigmav" (cell_measured_sigmav flux dmmodel fitted)) /\
  cell_measured_sigmav flux_example reference_example fitted_example
    namespace_at_measured_sigmav
  = (after_fluxes namespace_at_measured_sigmav emin mass
       (1 * (mass - emin)) (2 * (mass - emin)),
     inl (NameError "meas_sigmav")).
Proof.
  split; [exact cell_measured_sigmav_raises |].
  rewrite (cell_measured_sigmav_run flux_example reference_example
             fitted_example namespace_at_measured_sigmav emin mass
             (1 * (mass - emin)) (2 * (mass - emin)));
    reflexivity.
Qed.

Lemma measured_sigmav_is_never_assigned_witness :
  exists ns' e,
    cell_measured_sigmav flux_zero reference_example fitted_example
      namespace_at_measured_sigmav = (ns', inl e).
Proof.
  apply (proj1 measured_sigmav_is_never_assigned flux_zero reference_example
           fitted_example namespace_at_measured_sigmav).
  reflexivity.
Defined.

(** C2: with the unmodified reference model in the place of the fitted
    one, the cell integrates both fluxes over [0.03 TeV, mass GeV] and
    finds them equal, but it ends on the [NameError] for [meas_sigmav]: no
    measured cross section comes out to be compared with the reference. *)
Theorem reference_round_trip_has_no_cross_section :
  exists ns' flux_value,
    cell_measured_sigmav flux_example reference_example reference_example
      namespace_at_measured_sigmav
    = (ns', inl (NameError "meas_sigmav")) /\
    ns' !! "gemin" = Some (PyEnergy (mkEnergy 0.03 TeV)) /\
    ns' !! "gemax" = Some (PyEnergy (mkEnergy 5.0e+3 GeV)) /\
    ns' !! "ref_flux" = Some (PyFloat flux_value) /\
    ns' !! "meas_flux" = Some (PyFloat flux_value) /\
    ns' !! "meas_sigmav" = None.
Proof.
  eexists. exists (1 * (mass - emin)). split.
  - rewrite (cell_measured_sigmav_run flux_example reference_example
               reference_example namespace_at_measured_sigmav emin mass
               (1 * (mass - emin)) (1 * (mass - emin)));
      reflexivity.
  - unfold after_fluxes. repeat split; reflexivity.
Qed.

(** C8, as stated, fails: a reference flux of zero is stored and the cell
    goes on to the measured flux; what it raises in the end is the
    [NameError], not [DegenerateReferenceError]. *)
Lemma zero_reference_flux_is_not_rejected :
  exists ns',
    cell_measured_sigmav flux_zero reference_example fitted_example
      namespace_at_measured_sigmav
    = (ns', inl (NameError "meas_sigmav")) /\
    ns' !! "ref_flux" = Some (PyFloat 0) /\
    ns' !! "meas_flux" = Some (PyFloat 0) /\
    inl (NameError "meas_sigmav") <> (inl DegenerateReferenceError : exn + pyval).
Proof.
  eexists. split.
  - rewrite (cell_measured_sigmav_run flux_zero reference_example
               fitted_example namespace_at_measured_sigmav emin mass 0 0);
      reflexivity.
  - unfold after_fluxes. repeat split; try reflexivity. discriminate.
Qed.

(** C8, amended: the cell does not validate the reference flux.  Whatever
    the integrator returns for it, positive or not, the cell stores it in
    [ref_flux], goes on to compute and store [meas_flux], and does not
    raise [DegenerateReferenceError]. *)
Theorem reference_flux_is_not_validated
    (flux : gmap string GModelPar -> GEnergy -> GEnergy -> option R)
    (dmmodel fitted : gmap string GModelPar)
    (ns : gmap string pyval) (emin mass r f : R) :
  ns !! "emin" = Some (PyFloat emin) ->
  ns !! "mass" = Some (PyFloat mass) ->
  flux dmmodel (mkEnergy emin TeV) (mkEnergy mass GeV) = Some r ->
  flux fitted (mkEnergy emin TeV) (mkEnergy mass GeV) = Some f ->
  exists ns' out,
    cell_measured_sigmav flux dmmodel fitted ns = (ns', out) /\
    ns' !! "ref_flux" = Some (PyFloat r) /\
    ns' !! "meas_flux" = Some (PyFloat f) /\
    out <> inl DegenerateReferenceError.
Proof.
  intros Hemin Hmass Hr Hf.
  rewrite (cell_measured_sigmav_run flux dmmodel fitted ns emin mass r f
             Hemin Hmass Hr Hf).
  do 2 eexists. split; [reflexivity |]. unfold after_fluxes.
  split; [| split].
  - rewrite lookup_insert_ne by discriminate. apply lookup_insert_eq.
  - apply lookup_insert_eq.
  - destruct (ns !! "meas_sigmav"); discriminate.
Qed.

Lemma reference_flux_is_not_validated_witness :
  exists ns' out,
    cell_measured_sigmav flux_zero reference_example fitted_example
      namespace_at_measured_sigmav = (ns', out) /\
    ns' !! "ref_flux" = Some (PyFloat 0) /\
    ns' !! "meas_flux" = Some (PyFloat 0) /\
    out <> inl DegenerateReferenceError.
Proof.
  apply (reference_flux_is_not_validated flux_zero reference_example
           fitted_example namespace_at_measured_sigmav emin mass 0 0);
    reflexivity.
Defined.

(** ** The profile scanner *)

Lemma for_each_app {S A} (body : A -> Py S unit) (l1 l2 : list A) (s : S) :
  for_each body (l1 ++ l2) s = (for_each body l1 ;; for_each body l2) s.
Proof.
  revert s. induction l1 as [| x l1 IH]; intros s; simpl.
  - reflexivity.
  - unfold bind. destruct (body x s) as [s' [e | u]]; [reflexivity |].
    rewrite IH. reflexivity.
Qed.

(** The two cells, once the normalization is found: the loop runs from
    the kernel with the normalization fixed and [ll_values] empty. *)
Lemma likelihood_profile_unfold {engine_state : Type}
    (optimizer : engine_state -> gmap string GModelPar ->
                 engine_state * option (gmap string R * R))
    (l : list R) (k : kernel engine_state) (p : GModelPar) :
  spectral k !! "Normalization" = Some p ->
  likelihood_profile optimizer l k =
    for_each (scan_step optimizer) l
      (mkKernel
         (<["Normalization" :=
              mkPar (cur p) (pmin p) (pmax p) false (scale_factor p)]>
            (spectral k))
         (opt_value k) (engine k) (fit_log k) []).
Proof.
  intros Hp. unfold likelihood_profile, fix_normalization, scan.
  rewrite (bind_ok _ _ _ _ _
             (like_par_ok "Normalization" Par.fix_ p _ k Hp eq_refl)).
  reflexivity.
Qed.

Lemma succeeded_omap_length (log : list (gmap string GModelPar * option R)) :
  Forall succeeded log -> length (omap snd log) = length log.
Proof.
  intros Hall. rewrite <- (length_map Some), <- (succeeded_omap log Hall).
  apply length_map.
Qed.

(** In a log whose calls all returned but the last, a failed call is the
    last one. *)
Lemma failed_call_is_last
    (logA log0 rest : list (gmap string GModelPar * option R))
    (specA spec : gmap string GModelPar) :
  Forall succeeded logA ->
  logA ++ [(specA, None)] = log0 ++ (spec, None) :: rest ->
  log0 = logA /\ rest = [].
Proof.
  intros Hall Heq.
  assert (Hlen : length log0 = length logA).
  { pose proof (f_equal length Heq) as Hl.
    rewrite !length_app in Hl. simpl in Hl.
    destruct (decide (length log0 < length logA)%nat) as [Hlt | Hge]; [| lia].
    exfalso.
    assert (Hnth : (logA ++ [(specA, None)]) !! length log0
                   = Some (spec, None)).
    { rewrite Heq. apply list_lookup_middle. reflexivity. }
    rewrite lookup_app_l in Hnth by exact Hlt.
    destruct (proj1 (Forall_lookup _ _) Hall _ _ Hnth) as [ll Hll].
    discriminate Hll. }
  symmetry in Heq. apply app_inj_1 in Heq; [| exact Hlen].
  destruct Heq as [H0 Hrest]. split; [exact H0 |].
  injection Hrest as _ <-. reflexivity.
Qed.

(** C4, as stated, fails: in a scan of ten values whose fifth fit fails,
    the exception ends the scan; four points are recorded, none flagged,
    and the last five values are never tried. *)
Lemma ten_point_scan_aborts_at_failure :
  snd (likelihood_profile (optimizer_fails_at 4) ten_trials kernel_example)
    = inl ExternalEvaluationFailure /\
  length (ll_values
    (fst (likelihood_profile (optimizer_fails_at 4) ten_trials kernel_example)))
    = 4%nat /\
  length (fit_log
    (fst (likelihood_profile (optimizer_fails_at 4) ten_trials kernel_example)))
    = 5%nat.
Proof. repeat split; vm_compute; reflexivity. Qed.

(** C4, amended: the scanner has no handling of a failed fit.  A fit that
    fails is the last call of the scan: the exception leaves the loop at
    that trial value, the scan ends with [ExternalEvaluationFailure], the
    points recorded are those of the trial values before it, one per
    value and in order, no failed point is recorded and no later value is
    tried.  First part, on the log of the calls: a failed call has no
    call after it and the scan has raised.  Second part, on the
    optimizer: if the scan of the values before [norma] completes and
    the fit for [norma] then fails, the scan of the whole sequence raises
    there and leaves the points of the values before [norma], whatever
    values follow. *)
Theorem scan_aborts_at_first_failure {engine_state : Type}
    (optimizer : engine_state -> gmap string GModelPar ->
                 engine_state * option (gmap string R * R))
    (norma_r : list R) (k : kernel engine_state) (p : GModelPar) :
  spectral k !! "Normalization" = Some p ->
  (exists k' out log,
     likelihood_profile optimizer norma_r k = (k', out) /\
     fit_log k' = fit_log k ++ log /\
     ran_in_order log norma_r /\
     Forall (returned_by optimizer) log /\
     ll_values k' = omap snd log /\
     (forall log0 spec rest, log = log0 ++ (spec, None) :: rest ->
        rest = [] /\
        out = inl ExternalEvaluationFailure /\
        Forall succeeded log0 /\
        map snd log0 = map Some (ll_values k') /\
        (length (ll_values k') < length norma_r)%nat /\
        exists norma, norma_r !! length log0 = Some norma /\
          normalization spec = Some norma) /\
     (forall e, out = inl e ->
        exists log0 spec, log = log0 ++ [(spec, None)])) /\
  (forall l1 norma l2 k1 p1,
     norma_r = l1 ++ norma :: l2 ->
     likelihood_profile optimizer l1 k = (k1, inr tt) ->
     spectral k1 !! "Normalization" = Some p1 ->
     snd (optimizer (engine k1)
            (<["Normalization" := set_cur norma p1]> (spectral k1))) = None ->
     likelihood_profile optimizer norma_r k =
       (mkKernel (<["Normalization" := set_cur norma p1]> (spectral k1))
          (opt_value k1)
          (fst (optimizer (engine k1)
                  (<["Normalization" := set_cur norma p1]> (spectral k1))))
          (fit_log k1 ++
             [(<["Normalization" := set_cur norma p1]> (spectral k1), None)])
          (ll_values k1),
        inl ExternalEvaluationFailure) /\
     length (ll_values k1) = length l1).
Proof.
  intros Hp. split.
  - destruct (likelihood_profile_spec optimizer norma_r k p Hp)
      as (k' & out & log & Hrun & Hlog & Hll & Hord & _ & Hret & _ & Hout).
    exists k', out, log.
    split; [exact Hrun |]. split; [exact Hlog |]. split; [exact Hord |].
    split; [exact Hret |]. split; [exact Hll |]. split.
    + intros log0 spec rest ->.
      destruct out as [e | u]; simpl in Hout.
      * destruct Hout as (-> & logA & specA & Heq & Hall).
        symmetry in Heq.
        destruct (failed_call_is_last _ _ _ _ _ Hall Heq) as [-> ->].
        rewrite omap_app in Hll. simpl in Hll. rewrite app_nil_r in Hll.
        destruct (ran_in_order_last _ _ _ _ Hord) as (norma & Hnth & Hnorm).
        split; [reflexivity |]. split; [reflexivity |].
        split; [exact Hall |].
        split; [rewrite Hll; apply succeeded_omap, Hall |].
        split; [| exists norma; split; assumption].
        rewrite Hll, (succeeded_omap_length _ Hall).
        apply lookup_lt_Some in Hnth. exact Hnth.
      * destruct Hout as [_ Hall]. exfalso.
        apply Forall_app in Hall as [_ Hall].
        inversion Hall as [| ? ? [ll Hsome] _]; subst. discriminate Hsome.
    + intros e ->. simpl in Hout.
      destruct Hout as (_ & log0 & spec & -> & _). eauto.
  - intros l1 norma l2 k1 p1 -> Hrun1 Hk1 Hfail.
    rewrite (likelihood_profile_unfold optimizer l1 k p Hp) in Hrun1.
    rewrite (likelihood_profile_unfold optimizer (l1 ++ norma :: l2) k p Hp).
    match type of Hrun1 with for_each _ l1 ?k0 = _ =>
      destruct (for_each_scan_step_spec optimizer l1 k0
                  (mkPar (cur p) (pmin p) (pmax p) false (scale_factor p)))
        as (k1' & out1 & log1 & Hrun1' & _ & Hll1 & _ & _ & _ & Hfix1
            & Hout1)
    end.
    { simpl. apply lookup_insert_eq. }
    { reflexivity. }
    rewrite Hrun1 in Hrun1'. injection Hrun1' as <- <-.
    simpl in Hout1, Hll1. destruct Hout1 as [Hlen1 Hall1].
    unfold normalization_fixed in Hfix1. rewrite Hk1 in Hfix1.
    injection Hfix1 as Hfix1.
    split.
    + rewrite for_each_app. unfold bind at 1. rewrite Hrun1.
      simpl for_each. unfold bind at 1.
      rewrite (scan_step_run optimizer k1 norma p1 Hk1 Hfix1). cbv zeta.
      destruct (optimizer (engine k1)
                  (<["Normalization" := set_cur norma p1]> (spectral k1)))
        as [e' [[best ll] |]]; simpl in Hfail; [discriminate Hfail |].
      reflexivity.
    + rewrite Hll1, (succeeded_omap_length _ Hall1). exact Hlen1.
Qed.

Lemma scan_aborts_at_first_failure_witness :
  likelihood_profile (optimizer_fails_at 4) ten_trials kernel_example =
    (mkKernel
       (<["Normalization" := set_cur 5 (mkPar 4 0.0 1.0e+20 false 1)]>
          (spectral scanned_four))
       (opt_value scanned_four)
       (fst (optimizer_fails_at 4 (engine scanned_four)
               (<["Normalization" := set_cur 5 (mkPar 4 0.0 1.0e+20 false 1)]>
                  (spectral scanned_four))))
       (fit_log scanned_four ++
          [(<["Normalization" := set_cur 5 (mkPar 4 0.0 1.0e+20 false 1)]>
              (spectral scanned_four), None)])
       (ll_values scanned_four),
     inl ExternalEvaluationFailure) /\
  length (ll_values scanned_four) = length [1; 2; 3; 4].
Proof.
  apply (proj2 (scan_aborts_at_first_failure (optimizer_fails_at 4)
                  ten_trials kernel_example (mkPar 2 0.0 1.0e+20 true 1)
                  eq_refl)
           [1; 2; 3; 4] 5 [6; 7; 8; 9; 10] scanned_four
           (mkPar 4 0.0 1.0e+20 false 1)).
  - reflexivity.
  - vm_compute. reflexivity.
  - vm_compute. reflexivity.
  - vm_compute. reflexivity.
Defined.

(** C5, as stated, fails: in a scan of three values whose second fit
    fails, the fit is called twice and one point is recorded. *)
Lemma three_point_scan_ends_early :
  length three_trials = 3%nat /\
  snd (likelihood_profile (optimizer_fails_at 1) three_trials kernel_example)
    = inl ExternalEvaluationFailure /\
  length (fit_log
    (fst (likelihood_profile (optimizer_fails_at 1) three_trials
            kernel_example)))
    = 2%nat /\
  length (ll_values
    (fst (likelihood_profile (optimizer_fails_at 1) three_trials
            kernel_example)))
    = 1%nat.
Proof. repeat split; vm_compute; reflexivity. Qed.

(** C5, amended: the scanner calls the fit on the trial values in the order
    of the sequence, one call per value, every call on the model with the
    normalization set to that value (nothing is cached or reordered), and
    records one point per call that returned, in the same order.  When
    every call made returns, the scan of N values completes with exactly N
    calls and exactly N points, the i-th point being the result of the
    i-th call.  The first call that fails is the last call: the scan then
    raises [ExternalEvaluationFailure] after k calls, 1 <= k <= N, with
    k - 1 points. *)
Theorem scan_calls_fit_once_per_trial_in_order {engine_state : Type}
    (optimizer : engine_state -> gmap string GModelPar ->
                 engine_state * option (gmap string R * R))
    (norma_r : list R) (k : kernel engine_state) (p : GModelPar) :
  spectral k !! "Normalization" = Some p ->
  exists k' out log,
    likelihood_profile optimizer norma_r k = (k', out) /\
    fit_log k' = fit_log k ++ log /\
    ran_in_order log norma_r /\
    Forall (returned_by optimizer) log /\
    ll_values k' = omap snd log /\
    (out = inr tt <-> Forall succeeded log) /\
    (out = inr tt ->
       length log = length norma_r /\
       length (ll_values k') = length norma_r /\
       map snd log = map Some (ll_values k')) /\
    (forall e, out = inl e ->
       e = ExternalEvaluationFailure /\
       (1 <= length log <= length norma_r)%nat /\
       S (length (ll_values k')) = length log /\
       exists log0 spec,
         log = log0 ++ [(spec, None)] /\
         Forall succeeded log0 /\
         map snd log0 = map Some (ll_values k')) /\
    ((forall e spec, snd (optimizer e spec) <> None) -> out = inr tt).
Proof.
  intros Hp.
  destruct (likelihood_profile_spec optimizer norma_r k p Hp)
    as (k' & out & log & Hrun & Hlog & Hll & Hord & _ & Hret & _ & Hout).
  exists k', out, log.
  split; [exact Hrun |]. split; [exact Hlog |]. split; [exact Hord |].
  split; [exact Hret |]. split; [exact Hll |].
  assert (Hiff : out = inr tt <-> Forall succeeded log).
  { destruct out as [e | []]; simpl in Hout.
    - destruct Hout as (_ & log0 & spec & -> & _).
      split; [discriminate |]. intros Hall. exfalso.
      apply Forall_app in Hall as [_ Hall].
      inversion Hall as [| ? ? [ll Hsome] _]; subst. discriminate Hsome.
    - split; [intros _; apply Hout | reflexivity]. }
  split; [exact Hiff |]. split; [| split].
  - intros ->. simpl in Hout. destruct Hout as [Hlen Hall].
    split; [exact Hlen |].
    split; [rewrite Hll, (succeeded_omap_length _ Hall); exact Hlen |].
    rewrite Hll. apply succeeded_omap, Hall.
  - intros e ->. simpl in Hout.
    destruct Hout as (-> & log0 & spec & -> & Hall).
    apply ran_in_order_length in Hord.
    rewrite omap_app in Hll. simpl in Hll. rewrite app_nil_r in Hll.
    rewrite length_app in *. simpl in *.
    split; [reflexivity |]. split; [lia |].
    split; [rewrite Hll, (succeeded_omap_length _ Hall); lia |].
    exists log0, spec. split; [reflexivity |]. split; [exact Hall |].
    rewrite Hll. apply succeeded_omap, Hall.
  - intros Hok. apply Hiff.
    exact (never_fails_succeeded optimizer log Hok Hret).
Qed.

Lemma optimizer_ok_never_fails (e : nat) (spec : gmap string GModelPar) :
  snd (optimizer_ok e spec) <> None.
Proof. discriminate. Qed.

Lemma scan_calls_fit_once_per_trial_in_order_witness :
  (exists k' log,
     likelihood_profile optimizer_ok three_trials kernel_example
       = (k', inr tt) /\
     fit_log k' = fit_log kernel_example ++ log /\
     ran_in_order log three_trials /\
     length log = 3%nat /\
     length (ll_values k') = 3%nat /\
     map snd log = map Some (ll_values k')) /\
  (exists k' log,
     likelihood_profile (optimizer_fails_at 2) three_trials kernel_example
       = (k', inl ExternalEvaluationFailure) /\
     fit_log k' = fit_log kernel_example ++ log /\
     ran_in_order log three_trials /\
     (1 <= length log <= 3)%nat /\
     S (length (ll_values k')) = length log).
Proof.
  split.
  - destruct (scan_calls_fit_once_per_trial_in_order optimizer_ok three_trials
                kernel_example (mkPar 2 0.0 1.0e+20 true 1) eq_refl)
      as (k' & out & log & Hrun & Hlog & Hord & _ & _ & _ & Hdone & _ & Hok).
    pose proof (Hok optimizer_ok_never_fails) as ->.
    destruct (Hdone eq_refl) as (Hlen & Hll & Hmap).
    exists k', log. repeat split; assumption.
  - destruct (scan_calls_fit_once_per_trial_in_order (optimizer_fails_at 2)
                three_trials kernel_example (mkPar 2 0.0 1.0e+20 true 1)
                eq_refl)
      as (k' & out & log & Hrun & Hlog & Hord & _ & _ & _ & _ & Hfail & _).
    assert (Hout : snd (likelihood_profile (optimizer_fails_at 2) three_trials
                          kernel_example) = inl ExternalEvaluationFailure)
      by (vm_compute; reflexivity).
    rewrite Hrun in Hout. simpl in Hout. subst out.
    destruct (Hfail _ eq_refl) as (_ & Hlen & Hll & _).
    exists k', log. repeat split; try assumption; apply Hlen.
Defined.

(** C6: the normalization is fixed before the first fit of the scan, every
    fit of the scan receives a model whose normalization is fixed, and
    when the scan is over, however it ended, the normalization is still
    fixed: the scanner does not set it free again. *)
Theorem normalization_left_fixed_by_scan {engine_state : Type}
    (optimizer : engine_state -> gmap string GModelPar ->
                 engine_state * option (gmap string R * R))
    (norma_r : list R) (k : kernel engine_state) (p : GModelPar) :
  spectral k !! "Normalization" = Some p ->
  exists k1 k' out log,
    fix_normalization k = (k1, inr tt) /\
    normalization_fixed (spectral k1) /\
    fit_log k1 = fit_log k /\
    likelihood_profile optimizer norma_r k = (k', out) /\
    fit_log k' = fit_log k ++ log /\
    Forall (fun entry => normalization_fixed (fst entry)) log /\
    normalization_fixed (spectral k').
Proof.
  intros Hp.
  destruct (likelihood_profile_spec optimizer norma_r k p Hp)
    as (k' & out & log & Hrun & Hlog & _ & _ & Hfixed & _ & Hend & _).
  eexists _, k', out, log. split; [| split; [| split]].
  - unfold fix_normalization.
    apply (like_par_ok "Normalization" Par.fix_ p _ k Hp eq_refl).
  - simpl. apply normalization_fixed_insert. reflexivity.
  - reflexivity.
  - repeat split; assumption.
Qed.

Lemma normalization_left_fixed_by_scan_witness :
  is_free <$> spectral kernel_example !! "Normalization" = Some true /\
  exists k1 k' out log,
    fix_normalization kernel_example = (k1, inr tt) /\
    normalization_fixed (spectral k1) /\
    fit_log k1 = fit_log kernel_example /\
    likelihood_profile optimizer_ok three_trials kernel_example = (k', out) /\
    fit_log k' = fit_log kernel_example ++ log /\
    Forall (fun entry => normalization_fixed (fst entry)) log /\
    normalization_fixed (spectral k').
Proof.
  split; [reflexivity |].
  apply (normalization_left_fixed_by_scan optimizer_ok three_trials
           kernel_example (mkPar 2 0.0 1.0e+20 true 1)).
  reflexivity.
Defined.

(** * Further properties *)

(** ** Frames of computations *)

Lemma steps_within_bind {S A B} (Rel : S -> S -> Prop)
    (c : Py S A) (k : A -> Py S B) :
  (forall s1 s2 s3, Rel s1 s2 -> Rel s2 s3 -> Rel s1 s3) ->
  steps_within Rel c -> (forall a, steps_within Rel (k a)) ->
  steps_within Rel (bind c k).
Proof.
  intros Htrans Hc Hk s. unfold bind. specialize (Hc s).
  destruct (c s) as [s1 [e | a]]; simpl in *; [exact Hc |].
  exact (Htrans _ _ _ Hc (Hk a s1)).
Qed.

Lemma same_outside_trans {V} names (s1 s2 s3 : gmap string V) :
  same_outside names s1 s2 -> same_outside names s2 s3 ->
  same_outside names s1 s3.
Proof. intros H12 H23 x Hx. rewrite (H23 x Hx). exact (H12 x Hx). Qed.

Lemma same_flags_trans s1 s2 s3 :
  same_flags s1 s2 -> same_flags s2 s3 -> same_flags s1 s3.
Proof. intros H12 H23 x. rewrite (H23 x). exact (H12 x). Qed.

Lemma on_par_same_outside names name op :
  name ∈ names -> steps_within (same_outside names) (on_par name op).
Proof.
  intros Hin spec x Hx. unfold on_par, update_par.
  destruct (spec !! name) as [p |]; [| reflexivity].
  destruct (op p) as [e | p']; [reflexivity |]. simpl.
  apply lookup_insert_ne. intros ->. exact (Hx Hin).
Qed.

Lemma on_par_same_flags name op :
  (forall p p', op p = inr p' -> is_free p' = is_free p) ->
  steps_within same_flags (on_par name op).
Proof.
  intros Hop spec x. unfold on_par, update_par.
  destruct (spec !! name) as [p |] eqn:Hp; [| reflexivity].
  destruct (op p) as [e | p'] eqn:Hopp; [reflexivity |]. simpl.
  destruct (decide (name = x)) as [<- | Hne].
  - rewrite lookup_insert_eq, Hp. simpl. f_equal. exact (Hop p p' Hopp).
  - rewrite lookup_insert_ne by exact Hne. reflexivity.
Qed.

Lemma Par_value_flag x p p' : Par.value x p = inr p' -> is_free p' = is_free p.
Proof. intros H. apply Par_value_inr in H. subst p'. reflexivity. Qed.

Lemma Par_value_inr_admits x p p' : Par.value x p = inr p' -> Par.admits p x.
Proof.
  unfold Par.value, Par.admits. intros H Hfree. rewrite Hfree in H.
  destruct (Rle_dec (pmin p) x); [| discriminate].
  destruct (Rle_dec x (pmax p)); [| discriminate]. split; assumption.
Qed.

Lemma Par_value_rejected x p :
  is_free p = true -> ~ pmin p <= x <= pmax p ->
  Par.value x p = inl OutOfRangeError.
Proof.
  unfold Par.value. intros -> Hout.
  destruct (Rle_dec (pmin p) x); [| reflexivity].
  destruct (Rle_dec x (pmax p)); [| reflexivity].
  exfalso. apply Hout. split; assumption.
Qed.

Lemma on_par_raise name op p e (spec : gmap string GModelPar) :
  spec !! name = Some p -> op p = inl e ->
  on_par name op spec = (spec, inl e).
Proof. intros Hp Hop. unfold on_par, update_par. rewrite Hp, Hop. reflexivity. Qed.

(** ** The cells that act on the spectral model *)

(** X5: the setup cell succeeds exactly when the loaded model has the
    three parameters and each accepts its value; the normalization is
    checked against the range the model was loaded with, because the cell
    declares the range [0.0, 1.0e+20] only after it has set the value. *)
Theorem setup_dmspec_succeeds_iff
    (loaded : gmap string GModelPar) (m ch f : R) :
  (exists dmspec, setup_dmspec m ch f loaded = (dmspec, inr tt)) <->
  (exists pm pc pn,
     loaded !! "Mass" = Some pm /\
     loaded !! "Channel" = Some pc /\
     loaded !! "Normalization" = Some pn /\
     Par.admits pm m /\ Par.admits pc ch /\ Par.admits pn f).
Proof.
  split.
  - intros [dmspec H]. unfold setup_dmspec in H.
    apply bind_inr_inv in H as (s1 & [] & H1 & H).
    apply bind_inr_inv in H as (s2 & [] & H2 & H).
    apply bind_inr_inv in H as (s3 & [] & H3 & H).
    apply bind_inr_inv in H as (s4 & [] & H4 & _).
    apply on_par_inr_inv in H1 as (pm & pm' & Hm & Vm & ->).
    apply on_par_inr_inv in H2 as (pc & pc' & Hc & Vc & ->).
    apply on_par_inr_inv in H3 as (pc2 & pc2' & _ & _ & ->).
    apply on_par_inr_inv in H4 as (pn & pn' & Hn & Vn & _).
    rewrite lookup_insert_ne in Hc by discriminate.
    rewrite !lookup_insert_ne in Hn by discriminate.
    exists pm, pc, pn.
    split; [exact Hm |]. split; [exact Hc |]. split; [exact Hn |].
    split; [exact (Par_value_inr_admits _ _ _ Vm) |].
    split; [exact (Par_value_inr_admits _ _ _ Vc) |].
    exact (Par_value_inr_admits _ _ _ Vn).
  - intros (pm & pc & pn & Hm & Hc & Hn & Am & Ac & An).
    eexists. apply (setup_dmspec_ok _ _ _ _ _ _ _ Hm Hc Hn Am Ac An).
Qed.

Lemma setup_dmspec_succeeds_iff_witness :
  exists dmspec,
    setup_dmspec mass channel (fluxnorm jfactor sigmav mass) loaded_example
      = (dmspec, inr tt).
Proof.
  apply (proj2 (setup_dmspec_succeeds_iff loaded_example mass channel
                  (fluxnorm jfactor sigmav mass))).
  exists (mkPar 1000 100 100000 false 1), (mkPar 1 1 30 false 1),
    (mkPar 1 0 1000 true 1).
  split; [reflexivity |]. split; [reflexivity |]. split; [reflexivity |].
  split; [apply admits_fixed; reflexivity |].
  split; [apply admits_fixed; reflexivity |].
  apply admits_example_normalization. unfold sigmav. lra.
Defined.

Lemma same_outside_refl {V} names (s : gmap string V) : same_outside names s s.
Proof. intros x _. reflexivity. Qed.

Lemma setup_dmspec_steps_outside m ch f :
  steps_within (same_outside ["Mass"; "Channel"; "Normalization"])
    (setup_dmspec m ch f).
Proof.
  unfold setup_dmspec.
  repeat first
    [ apply steps_within_bind; [apply same_outside_trans | | intros _]
    | apply on_par_same_outside; set_solver ].
Qed.

Lemma setup_dmspec_steps_flags m ch f :
  steps_within same_flags (setup_dmspec m ch f).
Proof.
  unfold setup_dmspec.
  repeat first
    [ apply steps_within_bind; [apply same_flags_trans | | intros _]
    | apply on_par_same_flags ];
    try (intros p p'; apply Par_value_flag);
    intros p p' [= <-]; reflexivity.
Qed.

(** X6: whether it succeeds or raises, the setup cell touches no parameter
    other than [Mass], [Channel] and [Normalization], and it changes no
    free/fixed flag: every parameter is as free or as fixed as the table
    file declared it. *)
Theorem setup_dmspec_frame (loaded : gmap string GModelPar) (m ch f : R) :
  same_outside ["Mass"; "Channel"; "Normalization"] loaded
    (fst (setup_dmspec m ch f loaded)) /\
  same_flags loaded (fst (setup_dmspec m ch f loaded)).
Proof.
  split; [apply setup_dmspec_steps_outside | apply setup_dmspec_steps_flags].
Qed.

Lemma setup_dmspec_frame_witness :
  fst (setup_dmspec mass channel 2 narrow_example) !! "Index"
    = narrow_example !! "Index" /\
  is_free <$> fst (setup_dmspec mass channel 2 narrow_example)
                !! "Normalization"
    = is_free <$> narrow_example !! "Normalization".
Proof.
  destruct (setup_dmspec_frame narrow_example mass channel 2) as [Hout Hfl].
  split; [| apply Hfl].
  apply Hout. rewrite !elem_of_cons. intros [H | [H | [H | H]]];
    [discriminate H .. | inversion H].
Defined.

(** X7: the value of the normalization is set before its range is
    declared.  If the loaded model has a free normalization whose range
    does not hold the value, the cell raises [OutOfRangeError] with [Mass]
    and [Channel] already set, the normalization untouched and the range
    [0.0, 1.0e+20] never declared, even for a value inside that range. *)
Theorem setup_dmspec_rejects_outside_loaded_range
    (loaded : gmap string GModelPar) (pm pc pn : GModelPar) (m ch f : R) :
  loaded !! "Mass" = Some pm ->
  loaded !! "Channel" = Some pc ->
  loaded !! "Normalization" = Some pn ->
  Par.admits pm m -> Par.admits pc ch ->
  is_free pn = true -> ~ pmin pn <= f <= pmax pn ->
  setup_dmspec m ch f loaded =
    (<["Channel" := mkPar ch (pmin pc) (pmax pc) (is_free pc) 1]>
       (<["Mass" := set_cur m pm]> loaded),
     inl OutOfRangeError).
Proof.
  intros Hm Hc Hn Am Ac Hfree Hout. unfold setup_dmspec.
  rewrite (bind_ok _ _ _ _ _ (on_par_ok _ _ _ _ _ Hm (Par_value_admits _ _ Am))).
  erewrite bind_ok; cycle 1.
  { eapply on_par_ok; [| apply Par_value_admits, Ac].
    rewrite lookup_insert_ne by discriminate. exact Hc. }
  erewrite bind_ok; cycle 1.
  { eapply on_par_ok; [apply lookup_insert_eq | reflexivity]. }
  rewrite insert_insert_eq. unfold bind.
  erewrite on_par_raise; [reflexivity | | apply Par_value_rejected; eassumption].
  rewrite !lookup_insert_ne by discriminate. exact Hn.
Qed.

Lemma setup_dmspec_rejects_outside_loaded_range_witness :
  0.0 <= 2 <= 1.0e+20 /\
  setup_dmspec mass channel 2 narrow_example =
    (<["Channel" := mkPar channel 1 30 false 1]>
       (<["Mass" := set_cur mass (mkPar 1000 100 100000 false 1)]>
          narrow_example),
     inl OutOfRangeError).
Proof.
  split; [lra |].
  apply (setup_dmspec_rejects_outside_loaded_range narrow_example
           (mkPar 1000 100 100000 false 1) (mkPar 1 1 30 false 1)
           (mkPar 1 0 1 true 1) mass channel 2);
    try reflexivity.
  - apply admits_fixed. reflexivity.
  - apply admits_fixed. reflexivity.
  - simpl. lra.
Defined.

(** X8: once the setup cell has run, the re-normalisation for the upper
    limit is checked against the declared range [0.0, 1.0e+20] and no
    longer against the range of the table file: any value in that range is
    accepted.  After the three cells the mass, freed in between, is fixed
    again at the mass of the setup, and the normalization holds the new
    value. *)
Theorem model_cells_end_state
    (loaded : gmap string GModelPar) (pm pc pn : GModelPar)
    (m ch f1 f2 : R) :
  loaded !! "Mass" = Some pm ->
  loaded !! "Channel" = Some pc ->
  loaded !! "Normalization" = Some pn ->
  Par.admits pm m -> Par.admits pc ch -> Par.admits pn f1 ->
  0.0 <= f2 <= 1.0e+20 ->
  model_cells m ch f1 f2 loaded =
    (<["Mass" := mkPar m (pmin pm) (pmax pm) false (scale_factor pm)]>
       (<["Normalization" :=
            mkPar f2 0.0 1.0e+20 (is_free pn) (scale_factor pn)]>
          (<["Channel" := mkPar ch (pmin pc) (pmax pc) (is_free pc) 1]>
             loaded)),
     inr tt).
Proof.
  intros Hm Hc Hn Am Ac An Hf2. unfold model_cells.
  rewrite (bind_ok _ _ _ _ _ (setup_dmspec_ok _ _ _ _ _ _ _ Hm Hc Hn Am Ac An)).
  unfold free_mass. erewrite bind_ok; cycle 1.
  { eapply on_par_ok; [| reflexivity].
    rewrite !lookup_insert_ne by discriminate. apply lookup_insert_eq. }
  erewrite renormalise_ok; cycle 1.
  { rewrite lookup_insert_ne by discriminate. apply lookup_insert_eq. }
  { apply lookup_insert_eq. }
  { intros _. simpl. exact Hf2. }
  f_equal. apply map_eq. intros x.
  rewrite !lookup_insert. repeat case_decide; try congruence; reflexivity.
Qed.

Lemma model_cells_end_state_witness :
  model_cells mass channel 1 2 narrow_example =
    (<["Mass" := mkPar mass 100 100000 false 1]>
       (<["Normalization" := mkPar 2 0.0 1.0e+20 true 1]>
          (<["Channel" := mkPar channel 1 30 false 1]> narrow_example)),
     inr tt).
Proof.
  apply (model_cells_end_state narrow_example
           (mkPar 1000 100 100000 false 1) (mkPar 1 1 30 false 1)
           (mkPar 1 0 1 true 1) mass channel 1 2);
    try reflexivity.
  - apply admits_fixed. reflexivity.
  - apply admits_fixed. reflexivity.
  - intros _. simpl. lra.
  - lra.
Defined.

(** X9: re-normalising twice is re-normalising once with the last value:
    the first value leaves no trace in the model. *)
Theorem renormalise_last_value_wins
    (models : gmap string GModelPar) (qn qm : GModelPar) (f1 f2 : R) :
  models !! "Normalization" = Some qn ->
  models !! "Mass" = Some qm ->
  Par.admits qn f1 -> Par.admits qn f2 ->
  (renormalise f1 ;; renormalise f2) models = renormalise f2 models.
Proof.
  intros Hn Hm A1 A2.
  rewrite (bind_ok _ _ _ _ _ (renormalise_ok _ _ _ _ Hn Hm A1)).
  rewrite (renormalise_ok _ _ _ _ Hn Hm A2).
  erewrite renormalise_ok; cycle 1.
  { rewrite lookup_insert_ne by discriminate. apply lookup_insert_eq. }
  { apply lookup_insert_eq. }
  { exact A2. }
  f_equal. simpl. apply map_eq. intros x.
  rewrite !lookup_insert. repeat case_decide; try congruence; reflexivity.
Qed.

Lemma renormalise_last_value_wins_witness :
  (renormalise (fluxnorm jfactor sigmav mass) ;;
   renormalise (fluxnorm jfactor sigmav_ul mass)) loaded_example
  = renormalise (fluxnorm jfactor sigmav_ul mass) loaded_example.
Proof.
  apply (renormalise_last_value_wins loaded_example
           (mkPar 1 0 1000 true 1) (mkPar 1000 100 100000 false 1)).
  - reflexivity.
  - reflexivity.
  - apply admits_example_normalization. unfold sigmav. lra.
  - apply admits_example_normalization. unfold sigmav_ul. lra.
Defined.

(** X10: when the new normalization is rejected, the re-normalisation
    stops there: the model is left exactly as it was and the mass is not
    fixed. *)
Theorem renormalise_rejected_leaves_model
    (models : gmap string GModelPar) (qn : GModelPar) (f : R) :
  models !! "Normalization" = Some qn ->
  is_free qn = true -> ~ pmin qn <= f <= pmax qn ->
  renormalise f models = (models, inl OutOfRangeError).
Proof.
  intros Hn Hfree Hout. unfold renormalise, bind.
  rewrite (on_par_raise _ _ _ _ _ Hn (Par_value_rejected _ _ Hfree Hout)).
  reflexivity.
Qed.

Lemma renormalise_rejected_leaves_model_witness :
  renormalise 2 narrow_example = (narrow_example, inl OutOfRangeError).
Proof.
  apply (renormalise_rejected_leaves_model narrow_example
           (mkPar 1 0 1 true 1) 2).
  - reflexivity.
  - reflexivity.
  - simpl. lra.
Defined.

(** ** The trial values, further *)

(** X12: every trial value lies within the limits the plot sets on its
    x axis, 1e-28 and 1e-6: no point of the profile falls outside the
    picture. *)
Theorem norma_r_within_xlim :
  Forall (fun norma => fst xlim <= norma <= snd xlim) norma_r.
Proof.
  apply Forall_forall. intros v Hv.
  apply list_elem_of_lookup in Hv. destruct Hv as [i Hi].
  rewrite norma_r_lookup, width_s_val in Hi.
  destruct (decide (i < npoints)%nat) as [Hlt | Hge]; [| discriminate].
  injection Hi as <-. unfold xlim, npoints in *. simpl fst. simpl snd.
  assert (Hi0 : 0 <= INR i) by apply pos_INR.
  assert (Hi49 : INR i <= 49).
  { replace 49 with (INR 49)
      by (rewrite INR_IZR_INZ; cbv [Z.of_nat Pos.of_succ_nat Pos.succ]; lra).
    apply le_INR. lia. }
  rewrite <- Rpower_10_m28, <- Rpower_10_m6.
  split; apply Rle_Rpower; lra.
Qed.

(** ** The profile scan, further *)

Lemma set_cur_set_cur x y p : set_cur x (set_cur y p) = set_cur x p.
Proof. reflexivity. Qed.

Lemma set_cur_cur p : set_cur (cur p) p = p.
Proof. destruct p. reflexivity. Qed.

Lemma default_last_cons {A} (d x : A) (l : list A) :
  default d (last (x :: l)) = default x (last l).
Proof. rewrite last_cons. destruct (last l); reflexivity. Qed.

(** Where the loop leaves the normalization and the optimized value. *)
Lemma for_each_scan_step_end {engine_state : Type}
    (optimizer : engine_state -> gmap string GModelPar ->
                 engine_state * option (gmap string R * R))
    (l : list R) : forall (k : kernel engine_state) p,
  spectral k !! "Normalization" = Some p -> is_free p = false ->
  exists k' out new,
    for_each (scan_step optimizer) l k = (k', out) /\
    ll_values k' = ll_values k ++ new /\
    match out with
    | inr _ =>
        spectral k' !! "Normalization"
          = Some (set_cur (default (cur p) (last l)) p) /\
        opt_value k' = default (opt_value k) (last new)
    | inl _ =>
        exists norma, l !! length new = Some norma /\
          spectral k' !! "Normalization" = Some (set_cur norma p)
    end.
Proof.
  induction l as [| norma l IH]; intros k p Hp Hfix.
  - exists k, (inr tt), []. simpl. rewrite app_nil_r, set_cur_cur. auto.
  - simpl for_each. unfold bind at 1.
    rewrite (scan_step_run optimizer k norma p Hp Hfix). cbv zeta.
    set (spec := <["Normalization" := set_cur norma p]> (spectral k)).
    destruct (optimizer (engine k) spec) as [e' [[best ll] |]].
    + destruct (IH (mkKernel (fit_update best spec) ll e'
                      (fit_log k ++ [(spec, Some ll)]) (ll_values k ++ [ll]))
                   (set_cur norma p))
        as (k' & out & new & Hrun & Hll & Hend).
      { simpl. apply fit_update_fixed; [apply lookup_insert_eq | exact Hfix]. }
      { exact Hfix. }
      exists k', out, (ll :: new). simpl in Hll. rewrite <- app_assoc in Hll.
      split; [exact Hrun |]. split; [exact Hll |].
      destruct out as [e | u].
      * destruct Hend as (v & Hv & Hn). exists v. split; assumption.
      * destruct Hend as [Hn Hopt]. simpl in Hn, Hopt.
        rewrite set_cur_set_cur in Hn.
        rewrite !default_last_cons. split; assumption.
    + eexists _, (inl ExternalEvaluationFailure), []. simpl.
      rewrite app_nil_r. split; [reflexivity |]. split; [reflexivity |].
      exists norma. split; [reflexivity |]. apply lookup_insert_eq.
Qed.

(** X13: the scan leaves the model at the last trial value it tried.
    After a complete scan the normalization is fixed at the last value of
    the sequence (1e-6 in the notebook), not at a fitted value, with its
    range and scale as before, and [like.opt().value()] is the last point
    recorded; after a scan ended by a failed fit the normalization is the
    trial value whose fit failed. *)
Theorem scan_leaves_last_trial_value {engine_state : Type}
    (optimizer : engine_state -> gmap string GModelPar ->
                 engine_state * option (gmap string R * R))
    (norma_r : list R) (k k' : kernel engine_state) (p : GModelPar)
    (out : exn + unit) :
  spectral k !! "Normalization" = Some p ->
  likelihood_profile optimizer norma_r k = (k', out) ->
  match out with
  | inr _ =>
      spectral k' !! "Normalization"
        = Some (mkPar (default (cur p) (last norma_r)) (pmin p) (pmax p)
                  false (scale_factor p)) /\
      opt_value k' = default (opt_value k) (last (ll_values k'))
  | inl _ =>
      exists norma, norma_r !! length (ll_values k') = Some norma /\
        spectral k' !! "Normalization"
          = Some (mkPar norma (pmin p) (pmax p) false (scale_factor p))
  end.
Proof.
  intros Hp Hrun. unfold likelihood_profile, fix_normalization, scan in Hrun.
  rewrite (bind_ok _ _ _ _ _
             (like_par_ok "Normalization" Par.fix_ p _ k Hp eq_refl)) in Hrun.
  unfold bind at 1, ll_values_new, modify in Hrun.
  match type of Hrun with context [for_each _ norma_r ?k0] =>
    destruct (for_each_scan_step_end optimizer norma_r k0
                (mkPar (cur p) (pmin p) (pmax p) false (scale_factor p)))
      as (k1 & out1 & new & Hrun1 & Hll & Hend)
  end.
  { simpl. apply lookup_insert_eq. }
  { reflexivity. }
  rewrite Hrun1 in Hrun. injection Hrun as -> ->.
  simpl in Hll. subst new. exact Hend.
Qed.

Lemma scan_leaves_last_trial_value_witness :
  spectral (fst (likelihood_profile optimizer_ok three_trials kernel_example))
    !! "Normalization"
    = Some (mkPar 3 0.0 1.0e+20 false 1) /\
  opt_value (fst (likelihood_profile optimizer_ok three_trials kernel_example))
    = default 0
        (last (ll_values (fst (likelihood_profile optimizer_ok three_trials
                                 kernel_example)))).
Proof.
  apply (scan_leaves_last_trial_value optimizer_ok three_trials kernel_example
           _ (mkPar 2 0.0 1.0e+20 true 1) (inr tt)).
  - reflexivity.
  - vm_compute. reflexivity.
Defined.

Section ScanFrame.

Context {engine_state : Type}.
Variable optimizer :
  engine_state -> gmap string GModelPar ->
  engine_state * option (gmap string R * R).

Implicit Type k : kernel engine_state.

Lemma keeps_fixed_parameters_trans k1 k2 k3 :
  keeps_fixed_parameters k1 k2 -> keeps_fixed_parameters k2 k3 ->
  keeps_fixed_parameters k1 k3.
Proof.
  intros H12 H23 name q Hne Hq Hfix.
  apply (H23 name q Hne); [| exact Hfix]. exact (H12 name q Hne Hq Hfix).
Qed.

Lemma like_par_keeps_fixed op :
  steps_within keeps_fixed_parameters
    (@like_par engine_state "Normalization" op).
Proof.
  intros k name q Hne Hq _. unfold like_par, update_par.
  destruct (spectral k !! "Normalization") as [p |]; [| exact Hq].
  destruct (op p) as [e | p']; [exact Hq |]. simpl.
  rewrite lookup_insert_ne by congruence. exact Hq.
Qed.

Lemma like_run_keeps_fixed :
  steps_within keeps_fixed_parameters (like_run optimizer).
Proof.
  intros k name q _ Hq Hfix. unfold like_run.
  destruct (optimizer (engine k) (spectral k)) as [e' [[best ll] |]]; simpl.
  - apply fit_update_fixed; assumption.
  - exact Hq.
Qed.

Lemma scan_step_keeps_fixed norma :
  steps_within keeps_fixed_parameters (scan_step optimizer norma).
Proof.
  unfold scan_step.
  apply steps_within_bind;
    [apply keeps_fixed_parameters_trans | apply like_par_keeps_fixed |].
  intros _. apply steps_within_bind;
    [apply keeps_fixed_parameters_trans | apply like_run_keeps_fixed |].
  intros _. apply steps_within_bind;
    [apply keeps_fixed_parameters_trans | |];
    intros; intros k name q _ Hq _; exact Hq.
Qed.

Lemma for_each_steps_within {S A} (Rel : S -> S -> Prop)
    (body : A -> Py S unit) (l : list A) :
  (forall s, Rel s s) ->
  (forall s1 s2 s3, Rel s1 s2 -> Rel s2 s3 -> Rel s1 s3) ->
  (forall x, steps_within Rel (body x)) ->
  steps_within Rel (for_each body l).
Proof.
  intros Hrefl Htrans Hbody. induction l as [| x l IH]; simpl.
  - intros s. apply Hrefl.
  - apply steps_within_bind; [exact Htrans | apply Hbody |].
    intros _. exact IH.
Qed.

Lemma likelihood_profile_keeps_fixed (l : list R) :
  steps_within keeps_fixed_parameters (likelihood_profile optimizer l).
Proof.
  unfold likelihood_profile, fix_normalization, scan.
  apply steps_within_bind;
    [apply keeps_fixed_parameters_trans | apply like_par_keeps_fixed |].
  intros _. apply steps_within_bind;
    [apply keeps_fixed_parameters_trans | |].
  - intros k name q _ Hq _. exact Hq.
  - intros _. apply for_each_steps_within.
    + intros k name q _ Hq _. exact Hq.
    + apply keeps_fixed_parameters_trans.
    + apply scan_step_keeps_fixed.
Qed.

End ScanFrame.

(** X14: the two cells of the profile leave every other fixed parameter of
    the model alone, however the scan ends: a parameter that is fixed when
    the profile starts, such as the mass fixed for the upper limit, has
    the same value, range and flag afterwards. *)
Theorem scan_keeps_other_fixed_parameters {engine_state : Type}
    (optimizer : engine_state -> gmap string GModelPar ->
                 engine_state * option (gmap string R * R))
    (norma_r : list R) (k : kernel engine_state)
    (name : string) (q : GModelPar) :
  name <> "Normalization" ->
  spectral k !! name = Some q -> is_free q = false ->
  spectral (fst (likelihood_profile optimizer norma_r k)) !! name = Some q.
Proof.
  intros Hne Hq Hfix.
  exact (likelihood_profile_keeps_fixed optimizer norma_r k name q Hne Hq Hfix).
Qed.

Lemma scan_keeps_other_fixed_parameters_witness :
  spectral (fst (likelihood_profile (optimizer_fails_at 4) ten_trials
                   kernel_example)) !! "Channel"
    = Some (mkPar 8 1 30 false 1).
Proof.
  apply (scan_keeps_other_fixed_parameters (optimizer_fails_at 4) ten_trials
           kernel_example "Channel" (mkPar 8 1 30 false 1)).
  - discriminate.
  - reflexivity.
  - reflexivity.
Defined.

(** X15: on a model that has no [Normalization] parameter the cell that
    fixes it raises and nothing else happens: no fit is run and
    [ll_values] is not reset.  The scan cell run on its own on such a
    model resets [ll_values] and raises at the first trial value, again
    before any fit. *)
Theorem scan_without_normalization_parameter {engine_state : Type}
    (optimizer : engine_state -> gmap string GModelPar ->
                 engine_state * option (gmap string R * R))
    (norma : R) (norma_r : list R) (k : kernel engine_state) :
  spectral k !! "Normalization" = None ->
  likelihood_profile optimizer (norma :: norma_r) k
    = (k, inl InvalidParameterError) /\
  scan optimizer (norma :: norma_r) k
    = (mkKernel (spectral k) (opt_value k) (engine k) (fit_log k) [],
       inl InvalidParameterError).
Proof.
  intros Hnone. split.
  - unfold likelihood_profile, fix_normalization, bind, like_par, update_par.
    rewrite Hnone. reflexivity.
  - unfold scan, bind, ll_values_new, modify. simpl.
    unfold bind, scan_step, bind, like_par, update_par. simpl.
    rewrite Hnone. reflexivity.
Qed.

Lemma scan_without_normalization_parameter_witness :
  likelihood_profile optimizer_ok [1; 2]
    (mkKernel (delete "Normalization" fitted_example) 0 0%nat [] [7])
    = (mkKernel (delete "Normalization" fitted_example) 0 0%nat [] [7],
       inl InvalidParameterError) /\
  scan optimizer_ok [1; 2]
    (mkKernel (delete "Normalization" fitted_example) 0 0%nat [] [7])
    = (mkKernel (delete "Normalization" fitted_example) 0 0%nat [] [],
       inl InvalidParameterError).
Proof.
  exact (scan_without_normalization_parameter optimizer_ok 1 [2]
           (mkKernel (delete "Normalization" fitted_example) 0 0%nat [] [7])
           eq_refl).
Defined.

(** X16: the number of points tells whether the scan was completed: the
    scan returns normally exactly when [ll_values] has as many entries as
    there are trial values, and it never has more: after a scan ended by
    a failed fit [ll_values] is shorter than [norma_r]. *)
Theorem scan_complete_iff_all_points {engine_state : Type}
    (optimizer : engine_state -> gmap string GModelPar ->
                 engine_state * option (gmap string R * R))
    (norma_r : list R) (k k' : kernel engine_state) (p : GModelPar)
    (out : exn + unit) :
  spectral k !! "Normalization" = Some p ->
  likelihood_profile optimizer norma_r k = (k', out) ->
  (length (ll_values k') <= length norma_r)%nat /\
  (out = inr tt <-> length (ll_values k') = length norma_r).
Proof.
  intros Hp Hrun.
  destruct (likelihood_profile_spec optimizer norma_r k p Hp)
    as (k1 & out1 & log & Hrun1 & _ & Hll & Hord & _ & _ & _ & Hout).
  rewrite Hrun in Hrun1. injection Hrun1 as <- <-.
  apply ran_in_order_length in Hord. rewrite Hll.
  destruct out as [e | []]; simpl in Hout.
  - destruct Hout as (_ & log0 & spec & -> & Hall).
    rewrite omap_app, length_app in *. simpl in *.
    rewrite (succeeded_omap_length log0 Hall).
    split; [lia |]. split; [discriminate | lia].
  - destruct Hout as [Hlen Hall].
    rewrite (succeeded_omap_length log Hall).
    split; [lia |]. split; [intros _; exact Hlen | reflexivity].
Qed.

Lemma scan_complete_iff_all_points_witness :
  (length (ll_values (fst (likelihood_profile (optimizer_fails_at 4)
                             ten_trials kernel_example)))
   <= length ten_trials)%nat /\
  ((inl ExternalEvaluationFailure : exn + unit) = inr tt <->
   length (ll_values (fst (likelihood_profile (optimizer_fails_at 4)
                             ten_trials kernel_example)))
   = length ten_trials).
Proof.
  apply (scan_complete_iff_all_points (optimizer_fails_at 4) ten_trials
           kernel_example _ (mkPar 2 0.0 1.0e+20 true 1)).
  - reflexivity.
  - vm_compute. reflexivity.
Defined.

(** ** The cell of the measured cross section, further *)

Lemma steps_within_same_state {S A} (Rel : S -> S -> Prop) (c : Py S A) :
  (forall s, Rel s s) -> (forall s, fst (c s) = s) -> steps_within Rel c.
Proof. intros Hrefl Hsame s. rewrite Hsame. apply Hrefl. Qed.

Lemma name_same_state x ns : fst (name x ns) = ns.
Proof. unfold name. destruct (ns !! x); reflexivity. Qed.

Lemma as_float_same_state {S} v (s : S) : fst (as_float v s) = s.
Proof. destruct v; reflexivity. Qed.

Lemma as_energy_same_state {S} v (s : S) : fst (as_energy v s) = s.
Proof. destruct v; reflexivity. Qed.

Lemma call_flux_same_state flux spec lo hi ns :
  fst (call_flux flux spec lo hi ns) = ns.
Proof. unfold call_flux. destruct (flux spec lo hi); reflexivity. Qed.

Lemma assign_same_outside names x v :
  x ∈ names -> steps_within (same_outside names) (assign x v).
Proof.
  intros Hin ns y Hy. unfold assign, modify. simpl.
  apply lookup_insert_ne. intros ->. exact (Hy Hin).
Qed.

Lemma cell_measured_sigmav_steps_outside flux dmmodel fitted :
  steps_within (same_outside ["gemin"; "gemax"; "ref_flux"; "meas_flux"])
    (cell_measured_sigmav flux dmmodel fitted).
Proof.
  unfold cell_measured_sigmav.
  repeat first
    [ apply steps_within_bind; [apply same_outside_trans | | intros ?]
    | apply assign_same_outside; set_solver
    | apply steps_within_same_state;
        [apply same_outside_refl
        | first [ apply name_same_state | apply as_float_same_state
                | apply as_energy_same_state | apply call_flux_same_state ] ] ].
Qed.

(** X17: the cell writes [gemin], [gemax], [ref_flux] and [meas_flux] and
    nothing else: whether it returns or raises, every other variable of
    the notebook is bound afterwards as it was before. *)
Theorem measured_sigmav_cell_frame
    (flux : gmap string GModelPar -> GEnergy -> GEnergy -> option R)
    (dmmodel fitted : gmap string GModelPar)
    (ns : gmap string pyval) (x : string) :
  x <> "gemin" -> x <> "gemax" -> x <> "ref_flux" -> x <> "meas_flux" ->
  fst (cell_measured_sigmav flux dmmodel fitted ns) !! x = ns !! x.
Proof.
  intros H1 H2 H3 H4.
  apply (cell_measured_sigmav_steps_outside flux dmmodel fitted ns x).
  rewrite !elem_of_cons. intros [-> | [-> | [-> | [-> | H]]]];
    [congruence .. | inversion H].
Qed.

Lemma measured_sigmav_cell_frame_witness :
  fst (cell_measured_sigmav flux_example reference_example fitted_example
         namespace_at_measured_sigmav) !! "sigmav"
    = namespace_at_measured_sigmav !! "sigmav".
Proof.
  apply (measured_sigmav_cell_frame flux_example reference_example
           fitted_example namespace_at_measured_sigmav "sigmav");
    discriminate.
Defined.

(** X18: the cell reads [emin] and [mass] from the notebook.  Without
    [emin] it raises [NameError] at once and binds nothing; with [emin]
    but without [mass] it raises [NameError] for [mass] after it has
    already bound [gemin]. *)
Theorem measured_sigmav_cell_needs_emin_and_mass
    (flux : gmap string GModelPar -> GEnergy -> GEnergy -> option R)
    (dmmodel fitted : gmap string GModelPar) (ns : gmap string pyval) :
  (ns !! "emin" = None ->
   cell_measured_sigmav flux dmmodel fitted ns
     = (ns, inl (NameError "emin"))) /\
  (forall e, ns !! "emin" = Some (PyFloat e) -> ns !! "mass" = None ->
   cell_measured_sigmav flux dmmodel fitted ns
     = (<["gemin" := PyEnergy (mkEnergy e TeV)]> ns,
        inl (NameError "mass"))).
Proof.
  split.
  - intros Hemin. unfold cell_measured_sigmav, bind, name.
    rewrite Hemin. reflexivity.
  - intros e Hemin Hmass.
    unfold cell_measured_sigmav, bind, name, assign, modify, as_float, ret.
    rewrite Hemin. rewrite lookup_insert_ne by discriminate.
    rewrite Hmass. reflexivity.
Qed.

Lemma measured_sigmav_cell_needs_emin_and_mass_witness :
  cell_measured_sigmav flux_example reference_example fitted_example ∅
    = (∅, inl (NameError "emin")) /\
  cell_measured_sigmav flux_example reference_example fitted_example
    (<["emin" := PyFloat emin]> ∅)
    = (<["gemin" := PyEnergy (mkEnergy emin TeV)]>
         (<["emin" := PyFloat emin]> ∅),
       inl (NameError "mass")).
Proof.
  split.
  - apply (proj1 (measured_sigmav_cell_needs_emin_and_mass flux_example
                    reference_example fitted_example ∅)).
    reflexivity.
  - apply (proj2 (measured_sigmav_cell_needs_emin_and_mass flux_example
                    reference_example fitted_example
                    (<["emin" := PyFloat emin]> ∅)) emin);
      reflexivity.
Defined.

(** X19: the reference flux is integrated first.  If that integral is
    rejected the cell raises with [gemin] and [gemax] bound and neither
    flux stored, whatever the fitted model; if only the integral of the
    fitted model is rejected, [ref_flux] has been stored and [meas_flux]
    has not. *)
Theorem measured_sigmav_cell_integral_rejected
    (flux : gmap string GModelPar -> GEnergy -> GEnergy -> option R)
    (dmmodel fitted : gmap string GModelPar)
    (ns : gmap string pyval) (emin mass : R) :
  ns !! "emin" = Some (PyFloat emin) ->
  ns !! "mass" = Some (PyFloat mass) ->
  (flux dmmodel (mkEnergy emin TeV) (mkEnergy mass GeV) = None ->
   cell_measured_sigmav flux dmmodel fitted ns
     = (<["gemax" := PyEnergy (mkEnergy mass GeV)]>
          (<["gemin" := PyEnergy (mkEnergy emin TeV)]> ns),
        inl InvalidRangeError)) /\
  (forall r,
   flux dmmodel (mkEnergy emin TeV) (mkEnergy mass GeV) = Some r ->
   flux fitted (mkEnergy emin TeV) (mkEnergy mass GeV) = None ->
   cell_measured_sigmav flux dmmodel fitted ns
     = (<["ref_flux" := PyFloat r]>
          (<["gemax" := PyEnergy (mkEnergy mass GeV)]>
             (<["gemin" := PyEnergy (mkEnergy emin TeV)]> ns)),
        inl InvalidRangeError)).
Proof.
  intros Hemin Hmass. split.
  - intros Hr.
    unfold cell_measured_sigmav, bind, name, assign, modify,
      call_flux, as_float, as_energy, ret, raise.
    rewrite Hemin.
    rewrite lookup_insert_ne by discriminate. rewrite Hmass.
    rewrite lookup_insert_ne by discriminate. rewrite lookup_insert_eq.
    rewrite lookup_insert_eq. rewrite Hr. reflexivity.
  - intros r Hr Hf.
    unfold cell_measured_sigmav, bind, name, assign, modify,
      call_flux, as_float, as_energy, ret, raise.
    rewrite Hemin.
    rewrite lookup_insert_ne by discriminate. rewrite Hmass.
    rewrite lookup_insert_ne by discriminate. rewrite lookup_insert_eq.
    rewrite lookup_insert_eq. rewrite Hr.
    rewrite !lookup_insert_ne by discriminate. rewrite lookup_insert_eq.
    rewrite lookup_insert_ne by discriminate. rewrite lookup_insert_eq.
    rewrite Hf. reflexivity.
Qed.

Lemma measured_sigmav_cell_integral_rejected_witness :
  cell_measured_sigmav flux_undefined reference_example fitted_example
    namespace_at_measured_sigmav
    = (<["gemax" := PyEnergy (mkEnergy mass GeV)]>
         (<["gemin" := PyEnergy (mkEnergy emin TeV)]>
            namespace_at_measured_sigmav),
       inl InvalidRangeError).
Proof.
  apply (proj1 (measured_sigmav_cell_integral_rejected flux_undefined
                  reference_example fitted_example
                  namespace_at_measured_sigmav emin mass eq_refl eq_refl)).
  reflexivity.
Defined.

(** X20: what the cell prints does not come from the fluxes it computes.
    If [meas_sigmav] is bound when the cell starts, to a value left by
    anything run before, the cell prints that value, whatever the two
    integrals are. *)
Theorem measured_sigmav_cell_prints_earlier_value
    (flux : gmap string GModelPar -> GEnergy -> GEnergy -> option R)
    (dmmodel fitted : gmap string GModelPar)
    (ns : gmap string pyval) (emin mass r f : R) (v : pyval) :
  ns !! "emin" = Some (PyFloat emin) ->
  ns !! "mass" = Some (PyFloat mass) ->
  flux dmmodel (mkEnergy emin TeV) (mkEnergy mass GeV) = Some r ->
  flux fitted (mkEnergy emin TeV) (mkEnergy mass GeV) = Some f ->
  ns !! "meas_sigmav" = Some v ->
  cell_measured_sigmav flux dmmodel fitted ns
    = (after_fluxes ns emin mass r f, inr v).
Proof.
  intros Hemin Hmass Hr Hf Hv.
  rewrite (cell_measured_sigmav_run flux dmmodel fitted ns emin mass r f
             Hemin Hmass Hr Hf).
  rewrite Hv. reflexivity.
Qed.

Lemma measured_sigmav_cell_prints_earlier_value_witness :
  cell_measured_sigmav flux_example reference_example fitted_example
    (<["meas_sigmav" := PyFloat 7]> namespace_at_measured_sigmav)
    = (after_fluxes
         (<["meas_sigmav" := PyFloat 7]> namespace_at_measured_sigmav)
         emin mass (1 * (mass - emin)) (2 * (mass - emin)),
       inr (PyFloat 7)).
Proof.
  apply (measured_sigmav_cell_prints_earlier_value flux_example
           reference_example fitted_example
           (<["meas_sigmav" := PyFloat 7]> namespace_at_measured_sigmav)
           emin mass (1 * (mass - emin)) (2 * (mass - emin)) (PyFloat 7));
    reflexivity.
Defined.


(** ** The cross section and the normalization *)





